(** * Course classification: normalisation, rule matching, fuzzy gate, subset view

    A shallow embedding of the classification scripts of the course
    catalogue repository:

    - [ai_analysis_broad.py]: [normalize_text], [max_fuzzy_score], the
      [BROAD_PATTERNS] table and the flag / reason / subset computation of
      [main];
    - [ethics_filter.py] and [ethics_analysis.py]: the two [EthicsMatcher]
      classes and the subset computation of [ethics_analysis.main].

    Python strings are sequences of code points; a code point is an [N].
    What Python takes from the Unicode database outside ASCII (the lower-case
    mapping of [str.lower], the word characters of [\b]) is an interface,
    [Unicode]; everything inside ASCII is written out. *)

From Stdlib Require Import List NArith ZArith Bool String Ascii Lia.
From Stdlib Require Import Sorting.Sorted Sorting.Permutation.
From Stdlib Require Import DecimalString.
Import ListNotations.

Set Implicit Arguments.

(* ================================================================= *)
(** ** Python strings *)

Definition cp := N.
Definition pystr := list cp.

(** An ASCII literal of the source as a Python string. *)
Definition str (s : string) : pystr := map N_of_ascii (list_ascii_of_string s).

Definition pystr_eqb (a b : pystr) : bool :=
  if list_eq_dec N.eq_dec a b then true else false.

Local Open Scope N_scope.

(** The part of the Unicode database the scripts reach through Python.
    [ulower before c after] is what [str.lower] writes for the non-ASCII
    code point [c] standing between [before] and [after] (the mapping may
    have several code points, and capital sigma looks at its context);
    [uword c] says whether the non-ASCII [c] is a word character for [\w]
    and [\b]. *)
Class Unicode := {
  ulower : pystr -> cp -> pystr -> pystr;
  uword : cp -> bool
}.

(** A database that knows nothing outside ASCII: other code points are left
    alone by [lower] and are not word characters. *)
Definition ascii_only : Unicode :=
  {| ulower := fun _ c _ => [c]; uword := fun _ => false |}.

Definition is_ascii (c : cp) : bool := c <? 128.
Definition is_upper (c : cp) : bool := (65 <=? c) && (c <=? 90).
Definition is_lower (c : cp) : bool := (97 <=? c) && (c <=? 122).
Definition is_digit (c : cp) : bool := (48 <=? c) && (c <=? 57).

(** [str.isspace]: the code points [str.split()] splits on. *)
Definition is_space (c : cp) : bool :=
  ((9 <=? c) && (c <=? 13)) || ((28 <=? c) && (c <=? 32))
  || (c =? 133) || (c =? 160) || (c =? 5760)
  || ((8192 <=? c) && (c <=? 8202))
  || (c =? 8232) || (c =? 8233) || (c =? 8239) || (c =? 8287) || (c =? 12288).

Definition SPACE : cp := 32.

Section Text.
Context {U : Unicode}.

(** [text.lower()] *)
Definition lower_char (before : pystr) (c : cp) (after : pystr) : pystr :=
  if is_ascii c then [if is_upper c then c + 32 else c]
  else ulower before c after.

Fixpoint lower_from (before s : pystr) : pystr :=
  match s with
  | [] => []
  | c :: r => lower_char before c r ++ lower_from (before ++ [c]) r
  end.

Definition lower (s : pystr) : pystr := lower_from [] s.

(** [NON_ALNUM_RE = re.compile(r"[^a-z0-9]+")]: the class it negates. *)
Definition is_az09 (c : cp) : bool := is_lower c || is_digit c.

(** [NON_ALNUM_RE.sub(" ", s)]: every maximal run of code points outside
    [a-z0-9] becomes one space.  [in_run] says that the previous code point
    was already part of the run being replaced. *)
Fixpoint non_alnum_sub (in_run : bool) (s : pystr) : pystr :=
  match s with
  | [] => []
  | c :: r =>
      if is_az09 c then c :: non_alnum_sub false r
      else if in_run then non_alnum_sub true r
      else SPACE :: non_alnum_sub true r
  end.

(** [s.split()]: the maximal runs of non-space code points, in order;
    [cur] is the word being read. *)
Fixpoint split_from (cur s : pystr) : list pystr :=
  match s with
  | [] => match cur with [] => [] | _ => [cur] end
  | c :: r =>
      if is_space c then
        match cur with
        | [] => split_from [] r
        | _ => cur :: split_from [] r
        end
      else split_from (cur ++ [c]) r
  end.

Definition split (s : pystr) : list pystr := split_from [] s.

(** [sep.join(ws)] *)
Fixpoint join (sep : pystr) (ws : list pystr) : pystr :=
  match ws with
  | [] => []
  | [w] => w
  | w :: rest => w ++ sep ++ join sep rest
  end.

(** [normalize_text] of ai_analysis_broad.py *)
Definition normalize_text (text : pystr) : pystr :=
  let lowered := lower text in
  let cleaned := non_alnum_sub false lowered in
  join [SPACE] (split cleaned).

End Text.

(* ================================================================= *)
(** ** Regular expressions: the fragment of [re] the pattern tables use *)

(** Word boundary, literals, a set of literal characters, groups with
    alternatives and the optional quantifier: what [TITLE_PATTERNS],
    [DESCRIPTION_PATTERNS] and [BROAD_PATTERNS] are written in. *)
Inductive regex : Type :=
| Eps : regex
| Lit : cp -> regex
| CharSet : list cp -> regex
| WordB : regex
| Seq : regex -> regex -> regex
| Alt : regex -> regex -> regex
| Opt : regex -> regex.

(** Exceptions the scripts can raise. *)
Inductive error : Type :=
| ReError      (* re.error: a pattern that does not compile *)
| ValueError   (* max() of an empty sequence *)
| TypeError.   (* a search over a cell that is not a string *)

Inductive result (A : Type) : Type :=
| Ok : A -> result A
| Raise : error -> result A.
Arguments Ok {A} _.
Arguments Raise {A} _.

Definition bind {A B : Type} (m : result A) (k : A -> result B) : result B :=
  match m with
  | Ok a => k a
  | Raise e => Raise e
  end.

Notation "x <- m ;; k" := (bind m (fun x => k))
  (at level 61, m at next level, right associativity).

Fixpoint mapM {A B : Type} (f : A -> result B) (l : list A) : result (list B) :=
  match l with
  | [] => Ok []
  | a :: r => b <- f a ;; bs <- mapM f r ;; Ok (b :: bs)
  end.

Module Re.

Definition BACKSLASH : cp := 92.
Definition LPAREN : cp := 40.
Definition RPAREN : cp := 41.
Definition BAR : cp := 124.
Definition QUESTION : cp := 63.
Definition LBRACKET : cp := 91.
Definition RBRACKET : cp := 93.
Definition HYPHEN : cp := 45.
Definition LOWER_B : cp := 98.
Definition CARET : cp := 94.

(** Characters with a meaning of their own that the tables never use; the
    parser refuses them instead of guessing. *)
Definition unsupported_meta (c : cp) : bool :=
  existsb (N.eqb c) [42; 43; 46; 94; 36; 123; 125].

(** The members of a set [[...]], up to the closing bracket.  Only literal
    members are read: a hyphen is a member when it is the first or the last
    one; a range and a negated set are refused. *)
Fixpoint parse_set (first : bool) (s : pystr) : option (list cp * pystr) :=
  match s with
  | [] => None
  | c :: r =>
      if c =? RBRACKET then (if first then None else Some ([], r))
      else if first && (c =? CARET) then None
      else if (c =? BACKSLASH) || (c =? LBRACKET) || negb (is_ascii c) then None
      else if (c =? HYPHEN) && negb first
                && negb (match r with x :: _ => x =? RBRACKET | [] => false end)
           then None
      else match parse_set false r with
           | Some (cs, rest) => Some (c :: cs, rest)
           | None => None
           end
  end.

(** Recursive descent over the pattern text; [fuel] bounds the depth. *)
Fixpoint parse_alt (fuel : nat) (s : pystr) : option (regex * pystr) :=
  match fuel with
  | O => None
  | S f =>
      match parse_seq f s with
      | Some (r1, c :: rest) =>
          if c =? BAR then
            match parse_alt f rest with
            | Some (r2, rest') => Some (Alt r1 r2, rest')
            | None => None
            end
          else Some (r1, c :: rest)
      | other => other
      end
  end

with parse_seq (fuel : nat) (s : pystr) : option (regex * pystr) :=
  match fuel with
  | O => None
  | S f =>
      match s with
      | [] => Some (Eps, [])
      | c :: _ =>
          if (c =? BAR) || (c =? RPAREN) then Some (Eps, s)
          else
            match parse_atom f s with
            | Some (a, rest) =>
                let '(a', rest') :=
                  match rest with
                  | q :: r => if q =? QUESTION then (Opt a, r) else (a, rest)
                  | [] => (a, rest)
                  end in
                match parse_seq f rest' with
                | Some (r, rest'') => Some (Seq a' r, rest'')
                | None => None
                end
            | None => None
            end
      end
  end

with parse_atom (fuel : nat) (s : pystr) : option (regex * pystr) :=
  match fuel with
  | O => None
  | S f =>
      match s with
      | [] => None
      | c :: rest =>
          if c =? BACKSLASH then
            match rest with
            | e :: rest' => if e =? LOWER_B then Some (WordB, rest') else None
            | [] => None
            end
          else if c =? LPAREN then
            match parse_alt f rest with
            | Some (r, c' :: rest') =>
                if c' =? RPAREN then Some (r, rest') else None
            | _ => None
            end
          else if c =? LBRACKET then
            match parse_set true rest with
            | Some (cs, rest') => Some (CharSet cs, rest')
            | None => None
            end
          else if (c =? QUESTION) || (c =? RBRACKET) || unsupported_meta c
                  || negb (is_ascii c)
          then None
          else Some (Lit c, rest)
      end
  end.

(** [re.compile(pattern)]; [re.error] for what does not parse. *)
Definition compile (pattern : string) : result regex :=
  let s := str pattern in
  match parse_alt (S (3 * List.length s)) s with
  | Some (r, []) => Ok r
  | _ => Raise ReError
  end.

Section Matching.
Context {U : Unicode}.

(** [\w] *)
Definition is_word (c : cp) : bool :=
  if is_ascii c then is_lower c || is_upper c || is_digit c || (c =? 95)
  else uword c.

Definition is_word_opt (c : option cp) : bool :=
  match c with Some x => is_word x | None => false end.

(** A literal [p] of the pattern against the character [t] of the text.
    Under [re.IGNORECASE] the text character is lower-cased first; besides
    the ASCII capitals, U+0130 lower-cases to [i] and U+212A to [k], and
    [i] and [s] also stand for U+0131 and U+017F. *)
Definition sre_lower (t : cp) : cp :=
  if is_upper t then t + 32
  else if t =? 304 then 105
  else if t =? 8490 then 107
  else t.

Definition chr_match (ignorecase : bool) (p t : cp) : bool :=
  if ignorecase then
    let lo := sre_lower p in
    (sre_lower t =? lo)
    || ((lo =? 105) && (t =? 305))
    || ((lo =? 115) && (t =? 383))
  else t =? p.

(** Backtracking matcher in continuation style: [k prev rest] is what is
    left to match once [r] has consumed a prefix of [s]; [prev] is the
    character before the current position, for [\b]. *)
Fixpoint matches (ic : bool) (r : regex) (prev : option cp) (s : pystr)
    (k : option cp -> pystr -> bool) : bool :=
  match r with
  | Eps => k prev s
  | Lit c =>
      match s with
      | x :: s' => chr_match ic c x && k (Some x) s'
      | [] => false
      end
  | CharSet cs =>
      match s with
      | x :: s' => existsb (fun c => chr_match ic c x) cs && k (Some x) s'
      | [] => false
      end
  | WordB =>
      xorb (is_word_opt prev) (is_word_opt (hd_error s)) && k prev s
  | Seq a b => matches ic a prev s (fun p s' => matches ic b p s' k)
  | Alt a b => matches ic a prev s k || matches ic b prev s k
  | Opt a => matches ic a prev s k || k prev s
  end.

Fixpoint search_from (ic : bool) (r : regex) (prev : option cp) (s : pystr)
    : bool :=
  matches ic r prev s (fun _ _ => true)
  || match s with
     | [] => false
     | x :: s' => search_from ic r (Some x) s'
     end.

End Matching.

(** A compiled pattern object: the expression and its [IGNORECASE] flag. *)
Record Pattern : Type := { rx : regex; ignorecase : bool }.

(** [p.search(text)], as a truth value. *)
Definition search {U : Unicode} (p : Pattern) (text : pystr) : bool :=
  search_from (ignorecase p) (rx p) None text.

Definition compile_flags (flag_ignorecase : bool) (pattern : string)
    : result Pattern :=
  r <- compile pattern ;; Ok {| rx := r; ignorecase := flag_ignorecase |}.

(** Some pattern of [ps] is found in [text]. *)
Definition matches_any {U : Unicode} (ps : list Pattern) (text : pystr)
    : bool :=
  existsb (fun p => search p text) ps.

End Re.

(* ================================================================= *)
(** ** Sorting *)

(** A stable sort by insertion, for [sorted(...)] and [sort_values]: among
    elements that compare equal, the earlier one stays first. *)
Fixpoint insert_by {A : Type} (leb : A -> A -> bool) (x : A) (sorted : list A)
    : list A :=
  match sorted with
  | [] => [x]
  | y :: rest =>
      if leb x y then x :: y :: rest else y :: insert_by leb x rest
  end.

Definition sort_by {A : Type} (leb : A -> A -> bool) (l : list A) : list A :=
  fold_right (insert_by leb) [] l.

(* ================================================================= *)
(** ** Data frames *)

(** The value type of a column with its equality and its order: what
    [drop_duplicates] and [sort_values] compare with. *)
Class DType (A : Type) := {
  dt_eqb : A -> A -> bool;
  dt_leb : A -> A -> bool
}.

(** Python's order on [str]: code point by code point. *)
Fixpoint pystr_leb (a b : pystr) : bool :=
  match a, b with
  | [], _ => true
  | _ :: _, [] => false
  | x :: a', y :: b' =>
      if x <? y then true else if y <? x then false else pystr_leb a' b'
  end.

Definition pystr_le (a b : pystr) : Prop := pystr_leb a b = true.

(** An [object] column of strings, and an [int64] column. *)
#[export] Instance str_dtype : DType pystr :=
  {| dt_eqb := pystr_eqb; dt_leb := pystr_leb |}.
#[export] Instance int_dtype : DType Z :=
  {| dt_eqb := Z.eqb; dt_leb := Z.leb |}.

(** A cell is a value or missing (NaN), [None]. *)
Definition cell_eqb {A} `{DType A} (a b : option A) : bool :=
  match a, b with
  | None, None => true
  | Some x, Some y => dt_eqb x y
  | _, _ => false
  end.

(** [sort_values] puts missing values last ([na_position="last"]). *)
Definition cell_leb {A} `{DType A} (a b : option A) : bool :=
  match a, b with
  | _, None => true
  | None, Some _ => false
  | Some x, Some y => dt_leb x y
  end.

Section Frames.
(** [Num] is the value type of the [number] column: [read_csv] makes it
    [int64] when every number is numeric and [object] otherwise. *)
Context {Num : Type} `{DType Num}.

(** A row of the course CSV: the four required columns and [term]. *)
Record Row : Type := {
  term : option pystr;
  prefix : option pystr;
  number : option Num;
  title : option pystr;
  description : option pystr
}.

(** A row with the columns a script appends: its flag column, and the
    other ones in order (the reason column of the AI script; none in the
    ethics script). *)
Record Flagged : Type := {
  row : Row;
  flag : bool;
  others : list pystr
}.

Definition key_t : Type := (option pystr * option Num)%type.
Definition row_key (r : Row) : key_t := (prefix r, number r).
Definition key (f : Flagged) : key_t := row_key (row f).

Definition key_eqb (a b : key_t) : bool :=
  cell_eqb (fst a) (fst b) && cell_eqb (snd a) (snd b).

(** The order of [sort_values(["prefix", "number"])]. *)
Definition key_leb (a b : key_t) : bool :=
  if cell_eqb (fst a) (fst b) then cell_leb (snd a) (snd b)
  else cell_leb (fst a) (fst b).

(** [df[df[flag]]] *)
Definition select_flagged (df : list Flagged) : list Flagged :=
  filter flag df.

(** [.drop_duplicates(subset=["prefix", "number"])]: the first row of every
    key stays; [seen] are the keys already met. *)
Fixpoint drop_duplicates_from (seen : list key_t) (df : list Flagged)
    : list Flagged :=
  match df with
  | [] => []
  | r :: rest =>
      if existsb (key_eqb (key r)) seen then drop_duplicates_from seen rest
      else r :: drop_duplicates_from (key r :: seen) rest
  end.

Definition drop_duplicates (df : list Flagged) : list Flagged :=
  drop_duplicates_from [] df.

(** [.sort_values(["prefix", "number"])]: a stable sort on the key. *)
Definition sort_values (df : list Flagged) : list Flagged :=
  sort_by (fun a b => key_leb (key a) (key b)) df.

(** Two rows in the order of their keys. *)
Definition key_le (a b : Flagged) : Prop :=
  key_leb (key a) (key b) = true.

(** Two keys in order. *)
Definition key_order (a b : key_t) : Prop := key_leb a b = true.

(** The subset both [main]s write:
    [df[df[flag]].drop_duplicates(...).sort_values(...)]. *)
Definition subset (df : list Flagged) : list Flagged :=
  sort_values (drop_duplicates (select_flagged df)).

End Frames.
Arguments Row Num : clear implicits.
Arguments Flagged Num : clear implicits.
Arguments key_t Num : clear implicits.

(* ================================================================= *)
(** ** ai_analysis_broad.py *)

(** [fuzz.partial_ratio] of the [thefuzz] package, a score from 0 to 100. *)
Class Fuzz := { partial_ratio : pystr -> pystr -> Z }.

(** A scorer to run examples with: 100 when the two strings are equal. *)
Definition exact_fuzz : Fuzz :=
  {| partial_ratio := fun a b => if pystr_eqb a b then 100%Z else 0%Z |}.

Module AiBroad.

Definition BROAD_PATTERNS : list (string * string) := [
  ("artificial_intelligence", "\bartificial intelligence\b");
  ("ai", "\bai\b");
  ("machine_learning", "\bmachine learning\b");
  ("deep_learning", "\bdeep learning\b");
  ("generative_ai", "\bgenerative ai\b");
  ("llm", "\blarge language model(s)?\b");
  ("llm", "\bllm\b");
  ("gpt", "\bgpt\b");
  ("chatgpt", "\bchatgpt\b");
  ("neural_network", "\bneural network(s)?\b");
  ("reinforcement_learning", "\breinforcement learning\b");
  ("nlp", "\bnatural language processing\b");
  ("nlp", "\bnlp\b");
  ("computer_vision", "\bcomputer vision\b");
  ("machine_vision", "\bmachine vision\b");
  ("image_processing", "\bimage processing\b");
  ("pattern_recognition", "\bpattern recognition\b");
  ("data_mining", "\bdata mining\b");
  ("information_retrieval", "\binformation retrieval\b");
  ("expert_systems", "\bexpert systems?\b");
  ("knowledge_representation", "\bknowledge representation\b");
  ("intelligent_systems", "\bintelligent systems?\b");
  ("intelligent_agents", "\bintelligent agents?\b");
  ("autonomous_systems", "\bautonomous systems?\b");
  ("autonomous", "\bautonomous\b");
  ("robotics", "\brobotics?\b");
  ("computational_intelligence", "\bcomputational intelligence\b");
  ("speech_recognition", "\bspeech recognition\b");
  ("recommendation_systems", "\brecommendation systems?\b");
  ("recommender_systems", "\brecommender systems?\b");
  ("decision_support", "\bdecision support\b");
  ("intelligent_control", "\bintelligent control\b");
  ("data_science", "\bdata science\b")
]%string.

Definition BROAD_FUZZY_PHRASES : list string := [
  "artificial intelligence";
  "machine learning";
  "deep learning";
  "generative ai";
  "large language model";
  "neural network";
  "reinforcement learning";
  "natural language processing";
  "computer vision";
  "pattern recognition";
  "data mining";
  "information retrieval";
  "expert systems";
  "knowledge representation";
  "intelligent systems";
  "intelligent agent";
  "autonomous systems";
  "computational intelligence";
  "speech recognition";
  "recommendation systems";
  "recommender systems";
  "decision support";
  "intelligent control";
  "data science"
]%string.

(** [max(xs)] over integers; [ValueError] on an empty sequence. *)
Definition py_max (xs : list Z) : result Z :=
  match xs with
  | [] => Raise ValueError
  | x :: r => Ok (fold_left Z.max r x)
  end.

Definition max_fuzzy_score {F : Fuzz} (text_norm : pystr) (phrases : list pystr)
    : result Z :=
  match text_norm with
  | [] => Ok 0%Z
  | _ => py_max (map (fun phrase => partial_ratio text_norm phrase) phrases)
  end.

(** The comparison [main] makes for one record:
    [max_fuzzy_score(text, fuzzy_phrases) >= args.fuzzy_threshold]. *)
Definition fuzzy_decision {F : Fuzz} (text_norm : pystr)
    (phrases : list pystr) (threshold : Z) : result bool :=
  score <- max_fuzzy_score text_norm phrases ;; Ok (threshold <=? score)%Z.

(** [compiled = [(label, re.compile(pattern)) for label, pattern in ...]] *)
Definition compile_patterns (table : list (string * string))
    : result (list (pystr * Re.Pattern)) :=
  mapM (fun lp => p <- Re.compile_flags false (snd lp) ;; Ok (str (fst lp), p))
       table.

(** [sorted(set(hits))]: the distinct labels, in the order of [str]. *)
Definition sorted_set (hits : list pystr) : list pystr :=
  sort_by pystr_leb (nodup (list_eq_dec N.eq_dec) hits).

Definition COMMA : cp := 44.

Section Classify.
Context {U : Unicode} {F : Fuzz}.

(** [hits = [label for label, rx in compiled if rx.search(text_norm)]] *)
Definition hits_of (compiled : list (pystr * Re.Pattern)) (text_norm : pystr)
    : list pystr :=
  map fst (filter (fun lp => Re.search (snd lp) text_norm) compiled).

(** [",".join(sorted(set(hits))) if hits else ""] *)
Definition reason_of (hits : list pystr) : pystr :=
  match hits with
  | [] => []
  | _ => join [COMMA] (sorted_set hits)
  end.

(** [bool(hits)] *)
Definition truthy {A} (l : list A) : bool :=
  match l with [] => false | _ => true end.

(** [.fillna("")] on a cell *)
Definition fillna (c : option pystr) : pystr :=
  match c with Some s => s | None => [] end.

Record Args : Type := {
  fuzzy_threshold : Z;
  disable_fuzzy : bool
}.

Context {Num : Type} `{DType Num}.

(** [titles + " " + descriptions], normalised. *)
Definition text_norm_of (r : Row Num) : pystr :=
  normalize_text (fillna (title r) ++ [SPACE] ++ fillna (description r)).

(** The part of [main] up to the two appended columns, over given compiled
    patterns and phrases. *)
Definition classify_with (compiled : list (pystr * Re.Pattern))
    (fuzzy_phrases : list pystr) (args : Args) (df : list (Row Num))
    : result (list (Flagged Num)) :=
  let text_norm_series := map text_norm_of df in
  let hits := map (hits_of compiled) text_norm_series in
  let reasons := map reason_of hits in
  let matched := map (@truthy pystr) hits in
  fuzzy_match <-
    (if disable_fuzzy args then Ok (repeat false (List.length df))
     else mapM (fun text =>
                  fuzzy_decision text fuzzy_phrases (fuzzy_threshold args))
               text_norm_series) ;;
  let is_ai_candidate :=
    map (fun mf => fst mf || snd mf) (combine matched fuzzy_match) in
  Ok (map (fun x => {| row := fst (fst x); flag := snd (fst x);
                       others := [snd x] |})
          (combine (combine df is_ai_candidate) reasons)).

Definition classify (args : Args) (df : list (Row Num))
    : result (list (Flagged Num)) :=
  compiled <- compile_patterns BROAD_PATTERNS ;;
  let fuzzy_phrases := map (fun t => normalize_text (str t)) BROAD_FUZZY_PHRASES in
  classify_with compiled fuzzy_phrases args df.

(** [main]: the rows written to the output file. *)
Definition main (args : Args) (df : list (Row Num))
    : result (list (Flagged Num)) :=
  flagged <- classify args df ;; Ok (subset flagged).

End Classify.
End AiBroad.

(* ================================================================= *)
(** ** The ethics matchers *)

(** What reaches [is_match] as a title or a description: a string, [None],
    or the float NaN pandas puts in an empty cell. *)
Inductive pyval : Type :=
| PyStr : pystr -> pyval
| PyNone : pyval
| PyNaN : pyval.

(** A value of the declared type [str | None]. *)
Definition of_optional (v : option pystr) : pyval :=
  match v with Some s => PyStr s | None => PyNone end.

(** A cell of a data frame column. *)
Definition of_cell (v : option pystr) : pyval :=
  match v with Some s => PyStr s | None => PyNaN end.

(** The text of a value of type [str | None] after [v or ""]. *)
Definition text_of (v : option pystr) : pystr :=
  match v with Some s => s | None => [] end.

(** [v or ""]: [None] and the empty string are false, NaN is true. *)
Definition or_empty (v : pyval) : pyval :=
  match v with
  | PyStr s => PyStr s
  | PyNone => PyStr []
  | PyNaN => PyNaN
  end.

Module Ethics.

Definition TITLE_PATTERNS : list string := [
  "\bethic(s|al)?\b";
  "\bbioethic(s|al)?\b";
  "\bcyberethic(s|al)?\b"
]%string.

Definition DESCRIPTION_PATTERNS : list string := [
  "\bprofessional ethics\b";
  "\bethical decision[- ]making\b";
  "\bethical issues?\b";
  "\bethics and\b";
  "\bethics of\b";
  "\bethics in\b";
  "\bresearch ethics\b";
  "\bethical standards?\b";
  "\bethical responsibilities?\b";
  "\bhealth care ethics\b";
  "\benvironmental ethics\b";
  "\bbioethic(s|al)?\b";
  "\bcyberethic(s|al)?\b";
  "\bcode of ethics\b"
]%string.

Record EthicsMatcher : Type := {
  title_patterns : list Re.Pattern;
  description_patterns : list Re.Pattern
}.

Definition compile_all (patterns : list string) : result (list Re.Pattern) :=
  mapM (Re.compile_flags true) patterns.

Section Search.
Context {U : Unicode}.

(** [p.search(v)]: [TypeError] when [v] is not a string. *)
Definition search_val (p : Re.Pattern) (v : pyval) : result bool :=
  match v with
  | PyStr s => Ok (Re.search p s)
  | _ => Raise TypeError
  end.

(** [any(p.search(v) for p in ps)]: stops at the first match. *)
Fixpoint any_search (ps : list Re.Pattern) (v : pyval) : result bool :=
  match ps with
  | [] => Ok false
  | p :: rest =>
      b <- search_val p v ;; if b then Ok true else any_search rest v
  end.

End Search.
End Ethics.

(** *** ethics_filter.py *)
Module EthicsFilter.
Import Ethics.

Definition build (include_description : bool) : result EthicsMatcher :=
  dps <- (if include_description then compile_all DESCRIPTION_PATTERNS
          else Ok []) ;;
  tps <- compile_all TITLE_PATTERNS ;;
  Ok {| title_patterns := tps; description_patterns := dps |}.

Definition is_match {U : Unicode} (self : EthicsMatcher)
    (title description : pyval) : result bool :=
  let title_text := or_empty title in
  let description_text := or_empty description in
  t <- any_search (title_patterns self) title_text ;;
  if t then Ok true
  else match description_patterns self with
       | [] => Ok false
       | _ => any_search (description_patterns self) description_text
       end.

End EthicsFilter.

(** *** ethics_analysis.py *)
Module EthicsAnalysis.
Import Ethics.

Definition build : result EthicsMatcher :=
  tps <- compile_all TITLE_PATTERNS ;;
  dps <- compile_all DESCRIPTION_PATTERNS ;;
  Ok {| title_patterns := tps; description_patterns := dps |}.

Definition is_match {U : Unicode} (self : EthicsMatcher)
    (title description : pyval) : result bool :=
  let title_text := or_empty title in
  let description_text := or_empty description in
  t <- any_search (title_patterns self) title_text ;;
  if t then Ok true
  else any_search (description_patterns self) description_text.

Section Main.
Context {U : Unicode} {Num : Type} `{DType Num}.

(** The flag column of [main]. *)
Definition classify (df : list (Row Num)) : result (list (Flagged Num)) :=
  matcher <- build ;;
  ethics_flags <-
    mapM (fun r => is_match matcher (of_cell (title r))
                            (of_cell (description r))) df ;;
  Ok (map (fun x => {| row := fst x; flag := snd x; others := [] |})
          (combine df ethics_flags)).

(** [main]: the rows written to the output file. *)
Definition main (df : list (Row Num)) : result (list (Flagged Num)) :=
  flagged <- classify df ;; Ok (subset flagged).

End Main.
End EthicsAnalysis.

(* ================================================================= *)
(** ** Derived views used to state the properties *)

(** A word of a normalised text: not empty, over [a-z0-9]. *)
Definition word_ok (w : pystr) : Prop :=
  w <> [] /\ Forall (fun c => is_az09 c = true) w.

(** A record with the given title and nothing else, to run examples. *)
Definition titled (t : string) : Row Z :=
  {| term := None; prefix := None; number := None;
     title := Some (str t); description := None |}.

(** A flagged row of an [int64]-numbered frame, to run examples. *)
Definition sample_row (t p : string) (n : Z) (flagged : bool) : Flagged Z :=
  {| row := {| term := Some (str t); prefix := Some (str p);
               number := Some n; title := None; description := None |};
     flag := flagged; others := [] |}.

(** CS 470 offered in two terms and flagged in both, PHIL 100 not flagged,
    BIO 101 flagged. *)
Definition sample_frame : list (Flagged Z) := [
  sample_row "Fall 2025" "CS" 470 true;
  sample_row "Spring 2026" "CS" 470 true;
  sample_row "Fall 2025" "PHIL" 100 false;
  sample_row "Fall 2025" "BIO" 101 true
].

(** The laws of a column type: [dt_eqb] decides equality and [dt_leb] is a
    total order.  They hold of [int64] and of [str]. *)
Class DTypeLaws (A : Type) `{DType A} : Prop := {
  dt_eqb_eq : forall a b : A, dt_eqb a b = true <-> a = b;
  dt_leb_total : forall a b : A, dt_leb a b = true \/ dt_leb b a = true;
  dt_leb_trans : forall a b c : A,
      dt_leb a b = true -> dt_leb b c = true -> dt_leb a c = true;
  dt_leb_antisym : forall a b : A,
      dt_leb a b = true -> dt_leb b a = true -> a = b
}.
Arguments DTypeLaws A {_}.

Module AiView.
Import AiBroad.

(** The value of [compiled] in [main]: [BROAD_PATTERNS], compiled. *)
Definition compiled_broad : list (pystr * Re.Pattern) :=
  Eval vm_compute in
    match compile_patterns BROAD_PATTERNS with
    | Ok l => l
    | Raise _ => []
    end.

(** The value of [fuzzy_phrases] in [main]: the phrases are lower-case
    ASCII words already, and normalising them changes nothing. *)
Definition broad_phrases : list pystr := map str BROAD_FUZZY_PHRASES.

(** One entry of the [matched] column. *)
Definition rule_match {U : Unicode} (text_norm : pystr) : bool :=
  truthy (hits_of compiled_broad text_norm).

(** One entry of the [fuzzy_match] column when fuzzy matching is on; a
    comparison that raises classifies nothing. *)
Definition fuzzy_classified {F : Fuzz} (phrases : list pystr) (threshold : Z)
    (text_norm : pystr) : bool :=
  match fuzzy_decision text_norm phrases threshold with
  | Ok b => b
  | Raise _ => false
  end.

(** One entry of the reason column. *)
Definition reason_text {U : Unicode} (text_norm : pystr) : pystr :=
  reason_of (hits_of compiled_broad text_norm).

(** The row [main] builds for a record. *)
Definition flagged_row {U : Unicode} {F : Fuzz} {Num : Type} `{DType Num}
    (args : Args) (r : Row Num) : Flagged Num :=
  let text_norm := text_norm_of r in
  {| row := r;
     flag := rule_match text_norm
             || (negb (disable_fuzzy args)
                 && fuzzy_classified broad_phrases (fuzzy_threshold args)
                                     text_norm);
     others := [reason_text text_norm] |}.

(** The rule of the specification, in its words: positive when a primary
    pattern matches, or when a secondary and a context pattern both do. *)
Definition spec_tiered_match {U : Unicode}
    (primary secondary context : list Re.Pattern) (text_norm : pystr) : bool :=
  Re.matches_any primary text_norm
  || (Re.matches_any secondary text_norm && Re.matches_any context text_norm).

(** The patterns of [BROAD_PATTERNS] with one of the given labels, and the
    other ones. *)
Definition with_labels (labels : list string) : list Re.Pattern :=
  map snd (filter (fun lp => existsb (pystr_eqb (fst lp)) (map str labels))
                  compiled_broad).

Definition without_labels (labels : list string) : list Re.Pattern :=
  map snd (filter (fun lp => negb (existsb (pystr_eqb (fst lp))
                                           (map str labels)))
                  compiled_broad).

(** The tiers the specification names: "autonomous" and "data science" as
    secondary terms, "artificial intelligence", "machine learning" and "ai"
    as the context; every other pattern is taken as primary. *)
Definition spec_secondary : list string :=
  ["autonomous"; "data_science"]%string.
Definition spec_context : list string :=
  ["artificial_intelligence"; "machine_learning"; "ai"]%string.

End AiView.

(* ================================================================= *)
(** ** Views of the ethics script *)

Module EthicsView.
Import Ethics.

(** The value of [matcher] in [ethics_analysis.main]. *)
Definition ethics_matcher : EthicsMatcher :=
  Eval vm_compute in
    match EthicsAnalysis.build with
    | Ok m => m
    | Raise _ => {| title_patterns := []; description_patterns := [] |}
    end.

Section Rows.
Context {U : Unicode} {Num : Type}.




End Rows.
End EthicsView.

(* ================================================================= *)
(** ** Views of the patterns *)

(** The expression [re.compile] builds for a literal word between two
    word boundaries, ["\bword\b"]. *)
Fixpoint lits (w : pystr) (tail : regex) : regex :=
  match w with
  | [] => tail
  | c :: r => Seq (Lit c) (lits r tail)
  end.

Definition word_rx (w : pystr) : regex := Seq WordB (lits w (Seq WordB Eps)).

Definition word_pattern (w : pystr) : Re.Pattern :=
  {| Re.rx := word_rx w; Re.ignorecase := false |}.

(** The labels of [BROAD_PATTERNS] that stand for one pattern, a single
    word. *)
Definition single_word_labels : list pystr :=
  map str ["ai"; "gpt"; "chatgpt"; "autonomous"]%string.

(** What follows a word of a normalised text: the end or a space. *)
Definition word_end (tail : pystr) : Prop :=
  tail = [] \/ exists t, tail = SPACE :: t.

(** An ASCII capital as its small letter, any other character as it is. *)
Definition ascii_lower (c : cp) : cp := if is_upper c then c + 32 else c.

(* ================================================================= *)
(** ** scrape.py *)

(** The scraper drives a browser.  What the browser shows is not in the
    script's hands: the state of the driver and of the site is a type [W],
    and a call on the driver is a step from one state to the next. *)
Module Scrape.

Definition BASE : pystr := str "https://catalog.nau.edu/Courses".

Definition TERM_CODES : list (pystr * Z) :=
  [(str "Fall 2025", 1257%Z); (str "Spring 2026", 1261%Z)].

Definition PREFIXES : list pystr := map str [
  "ACC"; "ACM"; "ADM"; "ADV"; "AHB"; "AIS"; "ANS"; "ANT"; "APMS"; "ARB";
  "ARE"; "ARH"; "ART"; "AS"; "ASN"; "AST"; "AT"; "BA"; "BASW"; "BBA"; "BE";
  "BIO"; "BME"; "BSC"; "BSCI"; "BUS"; "CAL"; "CCHE"; "CCJ"; "CCS"; "CENE";
  "CENS"; "CHI"; "CHM"; "CIE"; "CINE"; "CIT"; "CLA"; "CM"; "CMF"; "COM";
  "CPP"; "CS"; "CSD"; "CST"; "CTE"; "CYB"; "DH"; "DIS"; "ECI"; "ECO";
  "EDF"; "EDL"; "EDR"; "EDU"; "EE"; "EES"; "EET"; "EGR"; "EIT"; "EMF";
  "EMGT"; "ENG"; "ENT"; "ENTY"; "ENV"; "ENVY"; "EPS"; "ES"; "ESE"; "ETC";
  "FIN"; "FIT"; "FOR"; "FRE"; "FW"; "FYS"; "GCS"; "GER"; "GLG"; "GRK";
  "GSP"; "HA"; "HHS"; "HIS"; "HISY"; "HON"; "HPI"; "HS"; "HUM"; "IBH";
  "ICJ"; "ID"; "IH"; "INF"; "INT"; "ISM"; "ITA"; "ITG"; "JLS"; "JPN";
  "JUS"; "LAN"; "LAS"; "LAT"; "LEA"; "MAT"; "ME"; "MER"; "MGBA"; "MGT";
  "MKT"; "MOL"; "MS"; "MST"; "MUP"; "MUS"; "NAU"; "NAUY"; "NAV"; "NSE";
  "NTS"; "NUR"; "OTD"; "PADM"; "PE"; "PHA"; "PHI"; "PHO"; "PHS"; "PHY";
  "POR"; "PM"; "POS"; "PR"; "PRM"; "PSY"; "PT"; "REL"; "RUS"; "SA"; "SBA";
  "SBS"; "SE"; "SIMY"; "SOC"; "SOCIO"; "SPA"; "SST"; "STA"; "STR"; "SUS";
  "SW"; "SYS"; "TH"; "TRAN"; "TSM"; "USC"; "VC"; "WGS"
]%string.

(** [str(n)] for an [int] *)
Definition py_int_str (n : Z) : pystr := str (NilZero.string_of_int (Z.to_int n)).

(** The dataclass [Course]. *)
Record Course : Type := {
  term : pystr;
  catalog_year : option pystr;
  prefix : pystr;
  number : pystr;
  title : pystr;
  description : option pystr;
  units : option pystr;
  sections_offered : option pystr;
  url : pystr
}.

(** A row of the CSV as a dict from column name to value, and the dict
    [existing] from URL to row; both in insertion order. *)
Definition row : Type := list (pystr * option pystr).
Definition dict : Type := list (pystr * row).

(** [asdict(course)] *)
Definition asdict (c : Course) : row := [
  (str "term", Some (term c));
  (str "catalog_year", catalog_year c);
  (str "prefix", Some (prefix c));
  (str "number", Some (number c));
  (str "title", Some (title c));
  (str "description", description c);
  (str "units", units c);
  (str "sections_offered", sections_offered c);
  (str "url", Some (url c))
].

(** [k in d] *)
Definition dict_mem {V : Type} (k : pystr) (d : list (pystr * V)) : bool :=
  existsb (fun kv => pystr_eqb (fst kv) k) d.

(** [d.get(k)] *)
Fixpoint dict_get {V : Type} (k : pystr) (d : list (pystr * V)) : option V :=
  match d with
  | [] => None
  | (k', v) :: r => if pystr_eqb k' k then Some v else dict_get k r
  end.

(** [d[k] = v]: a key that is there keeps its place, a new key goes last. *)
Fixpoint dict_set {V : Type} (k : pystr) (v : V) (d : list (pystr * V))
    : list (pystr * V) :=
  match d with
  | [] => [(k, v)]
  | (k', v') :: r =>
      if pystr_eqb k' k then (k, v) :: r else (k', v') :: dict_set k v r
  end.

(** [results_url] *)
Definition results_url (prefix : pystr) (term_code : Z) : pystr :=
  BASE ++ str "/results?subject=" ++ prefix ++ str "&catNbr=&term="
       ++ py_int_str term_code.

(** What one pass of the loop of [get_course_links] meets after
    [driver.get]: the wait times out; the "No courses found" heading is
    there; the result list is there, with the [href] of each anchor; or the
    driver raises something else, which the function does not catch. *)
Inductive page : Type :=
| TimedOut : page
| NoCourses : page
| Results : list (option pystr) -> page
| Failed : page.

(** The driver: loading a results page, and [scrape_course] on a course
    page, which returns the course or raises. *)
Class Browser (W : Type) := {
  load_results : W -> pystr -> page * W;
  scrape_course : W -> pystr -> pystr -> option Course * W
}.

(** [s.startswith(p)] *)
Fixpoint startswith (p s : pystr) : bool :=
  match p, s with
  | [], _ => true
  | _ :: _, [] => false
  | a :: p', b :: s' => (a =? b) && startswith p' s'
  end.

(** The body of the loop over the anchors: an [href] that is [None] or
    empty is skipped, a relative one is made absolute. *)
Definition absolute_href (href : option pystr) : list pystr :=
  match href with
  | None | Some [] => []
  | Some h =>
      [if startswith (str "course?") h then BASE ++ str "/" ++ h else h]
  end.

(** [sorted(links)] for the set [links] filled from the anchors. *)
Definition collect_links (hrefs : list (option pystr)) : list pystr :=
  AiBroad.sorted_set (flat_map absolute_href hrefs).

Section Driver.
Context {W : Type} {B : Browser W}.

(** The loop [for attempt in range(retries + 1)], from [attempt] on, with
    [fuel] passes left.  [None] is an exception that leaves the
    function. *)
Fixpoint links_loop (fuel : nat) (attempt retries : Z) (url : pystr)
    (driver : W) : option (list pystr) * W :=
  match fuel with
  | O => (Some [], driver)
  | S fuel' =>
      let '(pg, driver') := load_results driver url in
      match pg with
      | TimedOut =>
          if (attempt <? retries)%Z
          then links_loop fuel' (attempt + 1)%Z retries url driver'
          else (Some [], driver')
      | NoCourses => (Some [], driver')
      | Results hrefs => (Some (collect_links hrefs), driver')
      | Failed => (None, driver')
      end
  end.

Definition get_course_links (driver : W) (prefix : pystr) (term_code : Z)
    (retries : Z) : option (list pystr) * W :=
  links_loop (Z.to_nat (retries + 1)) 0%Z retries
             (results_url prefix term_code) driver.

(** What the script does to files: a line in the empty-prefix log, a
    rewrite of the course CSV from a dict. *)
Inductive event : Type :=
| LogEmptyPrefix : pystr -> Z -> pystr -> event
| WriteCsv : dict -> event.

(** [DictWriter] takes its columns from the first row and raises
    [ValueError] on a row with a key outside them; [write_csv] does
    nothing on an empty dict. *)
Definition writable (rows : dict) : bool :=
  match rows with
  | [] => true
  | (_, first) :: _ =>
      forallb (fun kv =>
                 forallb (fun k => existsb (pystr_eqb k) (map fst first))
                         (map fst (snd kv)))
              rows
  end.

(** The state of [main]: the driver, [existing], and the file events so
    far, latest first. *)
Record state : Type := {
  driver : W;
  existing : dict;
  events : list event
}.

(** The loop over the links of one prefix. *)
Fixpoint scrape_links (overwrite : bool) (term_label : pystr)
    (links : list pystr) (st : state) : state :=
  match links with
  | [] => st
  | link :: rest =>
      if dict_mem link (existing st) && negb overwrite
      then scrape_links overwrite term_label rest st
      else
        let '(res, driver') := scrape_course (driver st) link term_label in
        let existing' :=
          match res with
          | Some course => dict_set link (asdict course) (existing st)
          | None => existing st
          end in
        scrape_links overwrite term_label rest
          {| driver := driver'; existing := existing';
             events := events st |}
  end.

(** One pass of the loop over the prefixes; [inr] is the state in which an
    exception left [main]. *)
Definition prefix_step (overwrite : bool) (term_label : pystr) (term_code : Z)
    (prefix : pystr) (st : state) : state + state :=
  let '(res, driver') := get_course_links (driver st) prefix term_code 2 in
  let st1 := {| driver := driver'; existing := existing st;
                events := events st |} in
  match res with
  | None => inr st1
  | Some [] =>
      inl {| driver := driver'; existing := existing st;
             events := LogEmptyPrefix term_label term_code prefix
                       :: events st |}
  | Some links =>
      let st2 := scrape_links overwrite term_label links st1 in
      match existing st2 with
      | [] => inl st2
      | _ =>
          if writable (existing st2)
          then inl {| driver := driver st2; existing := existing st2;
                      events := WriteCsv (existing st2) :: events st2 |}
          else inr st2
      end
  end.

Fixpoint prefix_loop (overwrite : bool) (term_label : pystr) (term_code : Z)
    (prefixes : list pystr) (st : state) : state + state :=
  match prefixes with
  | [] => inl st
  | p :: rest =>
      match prefix_step overwrite term_label term_code p st with
      | inl st' => prefix_loop overwrite term_label term_code rest st'
      | inr st' => inr st'
      end
  end.

Fixpoint term_loop (overwrite : bool) (terms : list (pystr * Z))
    (prefixes : list pystr) (st : state) : state + state :=
  match terms with
  | [] => inl st
  | (term_label, term_code) :: rest =>
      match prefix_loop overwrite term_label term_code prefixes st with
      | inl st' => term_loop overwrite rest prefixes st'
      | inr st' => inr st'
      end
  end.

(** [main], from the dict [load_existing_courses] returned and the driver
    [make_driver] returned. *)
Definition main (overwrite : bool) (loaded : dict) (driver0 : W)
    : state + state :=
  term_loop overwrite TERM_CODES PREFIXES
            {| driver := driver0; existing := loaded; events := [] |}.

(** The state [main] ends in, finished or not. *)
Definition final (r : state + state) : state :=
  match r with inl st => st | inr st => st end.

End Driver.

(** A browser that plays a script: the pages of the coming loads, in
    order, and no course page that can be read. *)
#[export] Instance scripted : Browser (list page) := {|
  load_results := fun w _ =>
    match w with
    | [] => (TimedOut, [])
    | pg :: rest => (pg, rest)
    end;
  scrape_course := fun w _ _ => (None, w)
|}.

End Scrape.

(* ================================================================= *)
(** ** scrape.py: the sections of a course page *)

Module Sections.





End Sections.

(* ================================================================= *)
(** ** Views of the scraper *)

Module ScrapeView.
Import Scrape.

Definition is_timed_out (pg : page) : bool :=
  match pg with TimedOut => true | _ => false end.

(** What [get_course_links] returns on a page that did not time out. *)
Definition links_of_page (pg : page) : option (list pystr) :=
  match pg with
  | TimedOut | NoCourses => Some []
  | Results hrefs => Some (collect_links hrefs)
  | Failed => None
  end.

(** The pages the next [n] loads of [url] show. *)
Fixpoint observe {W : Type} {B : Browser W} (n : nat) (url : pystr) (w : W)
    : list page :=
  match n with
  | O => []
  | S n' =>
      let '(pg, w') := load_results w url in pg :: observe n' url w'
  end.

(** The columns of a row made by [asdict]. *)
Definition course_columns : list pystr :=
  map str ["term"; "catalog_year"; "prefix"; "number"; "title";
           "description"; "units"; "sections_offered"; "url"]%string.

(** A write event whose dict starts with the rows of [loaded], unchanged
    and in their order. *)
Definition keeps_loaded (loaded : dict) (ev : event) : Prop :=
  match ev with
  | WriteCsv rows => exists added, rows = loaded ++ added
  | LogEmptyPrefix _ _ _ => True
  end.


(** A course to run examples with. *)
Definition sample_course : Course :=
  {| term := str "Fall 2025"; catalog_year := Some (str "2025-2026");
     prefix := str "CS"; number := str "470";
     title := str "Artificial Intelligence"; description := None;
     units := Some (str "3"); sections_offered := None;
     url := str "https://catalog.nau.edu/Courses/course?courseId=1" |}.


End ScrapeView.

(* ================================================================= *)
(** * Properties *)

(** Boolean tests over code points, as arithmetic. *)
Ltac bool_to_prop :=
  repeat match goal with
         | H : _ || _ = true |- _ => apply orb_true_iff in H
         | H : _ && _ = true |- _ => apply andb_true_iff in H; destruct H
         | H : (_ <=? _)%N = true |- _ => apply N.leb_le in H
         | H : (_ <? _)%N = true |- _ => apply N.ltb_lt in H
         | H : (_ =? _)%N = true |- _ => apply N.eqb_eq in H
         | H : _ \/ _ |- _ => destruct H
         end.

(** ** normalize_text *)

Section TextFacts.
Context {U : Unicode}.

Lemma az09_not_space c : is_az09 c = true -> is_space c = false.
Proof.
  unfold is_az09, is_lower, is_digit, is_space. intro Hc.
  apply not_true_is_false. intro Hs. bool_to_prop; lia.
Qed.

Lemma az09_lower_char before c after :
  is_az09 c = true -> lower_char before c after = [c].
Proof.
  unfold is_az09, is_lower, is_digit, lower_char, is_ascii, is_upper.
  intro Hc.
  destruct (c <? 128) eqn:Ha.
  - destruct ((65 <=? c) && (c <=? 90)) eqn:Hu; [|reflexivity].
    bool_to_prop; lia.
  - apply N.ltb_ge in Ha. bool_to_prop; lia.
Qed.

Lemma space_lower_char before after : lower_char before SPACE after = [SPACE].
Proof. reflexivity. Qed.

Lemma space_is_space : is_space SPACE = true.
Proof. reflexivity. Qed.

Lemma space_not_az09 : is_az09 SPACE = false.
Proof. reflexivity. Qed.

(** [lower] leaves a text over [a-z0-9] and spaces alone. *)
Lemma lower_from_fixed s :
  Forall (fun c => is_az09 c = true \/ c = SPACE) s ->
  forall before, lower_from before s = s.
Proof.
  induction 1 as [|c r Hc _ IH]; intro pre; simpl; [reflexivity|].
  rewrite IH. destruct Hc as [Hc | ->].
  - now rewrite az09_lower_char.
  - now rewrite space_lower_char.
Qed.

Lemma join_chars ws :
  Forall word_ok ws ->
  Forall (fun c => is_az09 c = true \/ c = SPACE) (join [SPACE] ws).
Proof.
  induction 1 as [|w rest [_ Hw] _ IH]; simpl; [constructor|].
  assert (Hw' : Forall (fun c => is_az09 c = true \/ c = SPACE) w).
  { eapply Forall_impl; [|exact Hw]. intros; now left. }
  destruct rest; [exact Hw'|].
  apply Forall_app; split; [exact Hw'|].
  constructor; [now right | exact IH].
Qed.

(** The substitution does not touch a word, whatever came before it. *)
Lemma sub_word w s b :
  word_ok w -> non_alnum_sub b (w ++ s) = w ++ non_alnum_sub false s.
Proof.
  intros [Hne Hw]. revert b. induction Hw as [|c r Hc Hr IH]; intro b.
  - now destruct Hne.
  - simpl. rewrite Hc. f_equal. destruct r as [|c' r'].
    + reflexivity.
    + apply IH. discriminate.
Qed.

Lemma sub_join ws :
  Forall word_ok ws ->
  forall b, non_alnum_sub b (join [SPACE] ws) = join [SPACE] ws.
Proof.
  induction 1 as [|w rest Hw Hrest IH]; intro b; simpl; [reflexivity|].
  destruct rest as [|w2 rest'].
  - rewrite <- (app_nil_r w) at 1. rewrite sub_word by exact Hw.
    simpl. now rewrite app_nil_r.
  - rewrite sub_word by exact Hw. f_equal.
    cbn [app non_alnum_sub]. rewrite space_not_az09. f_equal. apply IH.
Qed.

(** [split] reads a word in one piece. *)
Lemma split_from_word w : 
  Forall (fun c => is_az09 c = true) w ->
  forall cur s, split_from cur (w ++ s) = split_from (cur ++ w) s.
Proof.
  induction 1 as [|c r Hc _ IH]; intros cur s; simpl.
  - now rewrite app_nil_r.
  - rewrite (az09_not_space _ Hc), IH, <- app_assoc. reflexivity.
Qed.

Lemma split_join ws :
  Forall word_ok ws -> split (join [SPACE] ws) = ws.
Proof.
  unfold split.
  induction 1 as [|w rest [Hne Hw] Hrest IH]; simpl; [reflexivity|].
  destruct rest as [|w2 rest'].
  - rewrite <- (app_nil_r w) at 1. rewrite split_from_word by exact Hw.
    simpl. destruct w; [now destruct Hne | reflexivity].
  - rewrite split_from_word by exact Hw.
    cbn [app split_from]. rewrite space_is_space.
    destruct w; [now destruct Hne|]. now rewrite IH.
Qed.

(** What [split] finds in the output of the substitution are words. *)
Lemma split_sub_words s :
  forall b cur,
    Forall (fun c => is_az09 c = true) cur ->
    Forall word_ok (split_from cur (non_alnum_sub b s)).
Proof.
  induction s as [|c r IH]; intros b cur Hcur; simpl.
  - destruct cur; constructor; [|constructor].
    split; [discriminate | exact Hcur].
  - destruct (is_az09 c) eqn:Hc.
    + simpl. rewrite (az09_not_space _ Hc). apply IH.
      apply Forall_app; split; [exact Hcur | now constructor].
    + destruct b.
      * now apply IH.
      * cbn [split_from]. rewrite space_is_space. destruct cur.
        -- now apply IH.
        -- constructor; [split; [discriminate | exact Hcur]|].
           apply IH. constructor.
Qed.

Lemma normalize_text_words text :
  exists ws, Forall word_ok ws /\ normalize_text text = join [SPACE] ws.
Proof.
  exists (split (non_alnum_sub false (lower text))). split; [|reflexivity].
  apply split_sub_words. constructor.
Qed.

Lemma normalize_text_join ws :
  Forall word_ok ws -> normalize_text (join [SPACE] ws) = join [SPACE] ws.
Proof.
  intro Hws. unfold normalize_text, lower.
  rewrite lower_from_fixed by now apply join_chars.
  rewrite sub_join by exact Hws. now rewrite split_join.
Qed.

End TextFacts.

(** C4. [normalize_text] is idempotent: normalising a normalised text
    gives it back, for every input string. *)
Theorem normalize_text_idempotent {U : Unicode} (x : pystr) :
  normalize_text (normalize_text x) = normalize_text x.
Proof.
  destruct (normalize_text_words x) as [ws [Hws ->]].
  now apply normalize_text_join.
Qed.

(** C9. On ["A.I."] the code returns ["a i"], not ["ai"]: each full stop is
    a run of its own and becomes a space, and the space between the two
    letters survives [split] and [join]. *)
Theorem normalize_text_A_I {U : Unicode} :
  normalize_text (str "A.I.") = str "a i"
  /\ normalize_text (str "A.I.") <> str "ai".
Proof.
  split; [reflexivity | discriminate].
Qed.

(* ================================================================= *)
(** ** Insertion sort *)

Section SortFacts.
Variable A : Type.
Variable leb : A -> A -> bool.

Lemma insert_by_perm (x : A) (l : list A) :
  Permutation (insert_by leb x l) (x :: l).
Proof.
  induction l as [|y rest IH]; simpl; [reflexivity|].
  destruct (leb x y); [reflexivity|].
  rewrite IH. apply perm_swap.
Qed.

Lemma sort_by_perm (l : list A) : Permutation (sort_by leb l) l.
Proof.
  induction l as [|x rest IH]; simpl; [reflexivity|].
  rewrite insert_by_perm. now constructor.
Qed.

Hypothesis leb_total : forall a b, leb a b = true \/ leb b a = true.
Hypothesis leb_trans :
  forall a b c, leb a b = true -> leb b c = true -> leb a c = true.

Let le (a b : A) : Prop := leb a b = true.

Lemma insert_by_sorted (x : A) (l : list A) :
  StronglySorted le l -> StronglySorted le (insert_by leb x l).
Proof.
  induction 1 as [|y rest Hrest IH Hy]; simpl.
  - repeat constructor.
  - destruct (leb x y) eqn:E.
    + constructor; [now constructor|]. constructor; [exact E|].
      eapply Forall_impl; [|exact Hy]. intros z Hz.
      unfold le in *. eapply leb_trans; eauto.
    + constructor; [exact IH|].
      eapply Permutation_Forall; [symmetry; apply insert_by_perm|].
      constructor; [|exact Hy].
      unfold le. destruct (leb_total x y); congruence.
Qed.

Lemma sort_by_sorted (l : list A) : StronglySorted le (sort_by leb l).
Proof.
  induction l as [|x rest IH]; simpl; [constructor|].
  now apply insert_by_sorted.
Qed.

End SortFacts.

(* ================================================================= *)
(** ** Column types and keys *)

Lemma pystr_eqb_eq (a b : pystr) : pystr_eqb a b = true <-> a = b.
Proof.
  unfold pystr_eqb. destruct (list_eq_dec N.eq_dec a b); split;
    intros; congruence.
Qed.

Lemma pystr_leb_total (a b : pystr) :
  pystr_leb a b = true \/ pystr_leb b a = true.
Proof.
  revert b. induction a as [|x a IH]; intros [|y b]; simpl; auto.
  destruct (N.ltb_spec x y), (N.ltb_spec y x); auto; lia.
Qed.

Lemma pystr_leb_trans (a b c : pystr) :
  pystr_leb a b = true -> pystr_leb b c = true -> pystr_leb a c = true.
Proof.
  revert b c. induction a as [|x a IH]; intros [|y b] [|z c]; simpl;
    try congruence.
  destruct (N.ltb_spec x y), (N.ltb_spec y x), (N.ltb_spec y z),
    (N.ltb_spec z y), (N.ltb_spec x z), (N.ltb_spec z x);
    try congruence; try lia.
  apply IH.
Qed.

Lemma pystr_leb_antisym (a b : pystr) :
  pystr_leb a b = true -> pystr_leb b a = true -> a = b.
Proof.
  revert b. induction a as [|x a IH]; intros [|y b]; simpl;
    try congruence.
  destruct (N.ltb_spec x y), (N.ltb_spec y x); try congruence; try lia.
  intros Hab Hba. f_equal; [lia | now apply IH].
Qed.

#[export] Instance str_laws : DTypeLaws pystr.
Proof.
  constructor.
  - exact pystr_eqb_eq.
  - exact pystr_leb_total.
  - exact pystr_leb_trans.
  - exact pystr_leb_antisym.
Qed.

#[export] Instance int_laws : DTypeLaws Z.
Proof.
  constructor; simpl; intros.
  - apply Z.eqb_eq.
  - rewrite !Z.leb_le. lia.
  - rewrite Z.leb_le in *. lia.
  - rewrite Z.leb_le in *. lia.
Qed.

Section CellFacts.
Context {A : Type} `{DTypeLaws A}.

Lemma cell_eqb_eq (a b : option A) : cell_eqb a b = true <-> a = b.
Proof.
  destruct a, b; simpl; try (split; congruence).
  rewrite dt_eqb_eq. split; congruence.
Qed.

Lemma cell_leb_total (a b : option A) :
  cell_leb a b = true \/ cell_leb b a = true.
Proof. destruct a, b; simpl; auto. apply dt_leb_total. Qed.

Lemma cell_leb_trans (a b c : option A) :
  cell_leb a b = true -> cell_leb b c = true -> cell_leb a c = true.
Proof.
  destruct a, b, c; simpl; try congruence. apply dt_leb_trans.
Qed.

Lemma cell_leb_antisym (a b : option A) :
  cell_leb a b = true -> cell_leb b a = true -> a = b.
Proof.
  destruct a, b; simpl; try congruence.
  intros. f_equal. now apply dt_leb_antisym.
Qed.

End CellFacts.

Section KeyFacts.
Context {Num : Type} `{DTypeLaws Num}.

Lemma key_eqb_eq (a b : key_t Num) : key_eqb a b = true <-> a = b.
Proof.
  destruct a as [p n], b as [p' n']. unfold key_eqb. simpl.
  rewrite andb_true_iff, !cell_eqb_eq. split.
  - intros [-> ->]. reflexivity.
  - intros [= -> ->]. auto.
Qed.

Lemma key_leb_total (a b : key_t Num) :
  key_leb a b = true \/ key_leb b a = true.
Proof.
  destruct a as [p n], b as [p' n']. unfold key_leb. simpl.
  destruct (cell_eqb p p') eqn:E.
  - apply cell_eqb_eq in E. subst p'.
    replace (cell_eqb p p) with true by (symmetry; now apply cell_eqb_eq).
    apply cell_leb_total.
  - destruct (cell_eqb p' p) eqn:E'.
    + apply cell_eqb_eq in E'. subst p'.
      assert (cell_eqb p p = true) by now apply cell_eqb_eq. congruence.
    + apply cell_leb_total.
Qed.

Lemma key_leb_trans (a b c : key_t Num) :
  key_leb a b = true -> key_leb b c = true -> key_leb a c = true.
Proof.
  destruct a as [p1 n1], b as [p2 n2], c as [p3 n3]. unfold key_leb. simpl.
  destruct (cell_eqb p1 p2) eqn:E12; destruct (cell_eqb p2 p3) eqn:E23;
    destruct (cell_eqb p1 p3) eqn:E13;
    repeat match goal with
           | E : cell_eqb _ _ = true |- _ => apply cell_eqb_eq in E; subst
           end;
    intros H1 H2;
    try (assert (Hrefl : forall x : option pystr, cell_eqb x x = true)
           by (intro; now apply cell_eqb_eq));
    try (rewrite Hrefl in *; discriminate);
    try congruence.
  - eapply cell_leb_trans; eauto.
  - pose proof (cell_leb_antisym _ _ H1 H2) as ->.
    rewrite Hrefl in E12. discriminate.
  - eapply cell_leb_trans; eauto.
Qed.

End KeyFacts.

(* ================================================================= *)
(** ** The subset view *)

Section FrameFacts.
Context {Num : Type} `{DTypeLaws Num}.

Lemma seen_spec (k : key_t Num) (seen : list (key_t Num)) :
  existsb (key_eqb k) seen = true <-> In k seen.
Proof.
  rewrite existsb_exists. split.
  - intros [k' [Hin Heq]]. apply key_eqb_eq in Heq. now subst.
  - intro Hin. exists k. split; [exact Hin | now apply key_eqb_eq].
Qed.

Lemma key_eq_dec (a b : key_t Num) : a = b \/ a <> b.
Proof.
  destruct (key_eqb a b) eqn:E.
  - left. now apply key_eqb_eq.
  - right. intro Heq. apply key_eqb_eq in Heq. congruence.
Qed.

Lemma drop_duplicates_from_in (df : list (Flagged Num)) :
  forall seen f, In f (drop_duplicates_from seen df) -> In f df.
Proof.
  induction df as [|r rest IH]; intros seen f; simpl; [tauto|].
  destruct (existsb (key_eqb (key r)) seen).
  - intro Hin. right. eapply IH, Hin.
  - intros [<- | Hin]; [now left | right; eapply IH, Hin].
Qed.

Lemma drop_duplicates_from_keys (df : list (Flagged Num)) :
  forall seen k,
    In k (map key (drop_duplicates_from seen df))
    <-> In k (map key df) /\ ~ In k seen.
Proof.
  induction df as [|r rest IH]; intros seen k; simpl; [tauto|].
  destruct (existsb (key_eqb (key r)) seen) eqn:E.
  - apply seen_spec in E. rewrite IH. split.
    + intros [Hk Hs]. auto.
    + intros [[<- | Hk] Hs]; [contradiction | auto].
  - assert (Hr : ~ In (key r) seen).
    { intro Hin. apply seen_spec in Hin. congruence. }
    simpl. rewrite IH. simpl. split.
    + intros [<- | [Hk Hs]]; [auto|]. split; [auto | tauto].
    + intros [[<- | Hk] Hs]; [auto|].
      destruct (key_eq_dec (key r) k) as [-> | Hne]; [auto|]. right. tauto.
Qed.

Lemma drop_duplicates_from_nodup (df : list (Flagged Num)) :
  forall seen, NoDup (map key (drop_duplicates_from seen df)).
Proof.
  induction df as [|r rest IH]; intro seen; simpl; [constructor|].
  destruct (existsb (key_eqb (key r)) seen); [apply IH|].
  simpl. constructor; [|apply IH].
  rewrite drop_duplicates_from_keys. simpl. tauto.
Qed.

Lemma sort_values_perm (l : list (Flagged Num)) :
  Permutation (sort_values l) l.
Proof. apply sort_by_perm. Qed.

Lemma sort_values_sorted (l : list (Flagged Num)) :
  StronglySorted key_le (sort_values l).
Proof.
  apply sort_by_sorted.
  - intros a b. apply key_leb_total.
  - intros a b c. apply key_leb_trans.
Qed.

End FrameFacts.

(** C5. The subset a script writes: every row of it is a row of the frame
    whose flag is true; no key (prefix, number) occurs twice; a key occurs
    exactly when some row with that key has its flag true; and the rows
    are in the order of (prefix, number). *)
Theorem subset_filtered_unique_sorted {Num : Type} `{DTypeLaws Num}
    (df : list (Flagged Num)) :
  (forall f, In f (subset df) -> In f df /\ flag f = true)
  /\ NoDup (map key (subset df))
  /\ (forall k, In k (map key (subset df))
                <-> exists f, In f df /\ flag f = true /\ key f = k)
  /\ StronglySorted key_le (subset df).
Proof.
  unfold subset, drop_duplicates, select_flagged.
  set (sel := filter flag df).
  set (dd := drop_duplicates_from [] sel).
  assert (Hperm : Permutation (sort_values dd) dd) by apply sort_values_perm.
  repeat split.
  - eapply proj1, filter_In. eapply drop_duplicates_from_in.
    eapply Permutation_in; [exact Hperm | eassumption].
  - eapply proj2, filter_In. eapply drop_duplicates_from_in.
    eapply Permutation_in; [exact Hperm | eassumption].
  - eapply Permutation_NoDup;
      [symmetry; apply Permutation_map; exact Hperm|].
    apply drop_duplicates_from_nodup.
  - intro Hk.
    assert (Hk' : In k (map key dd)).
    { eapply Permutation_in; [apply Permutation_map; exact Hperm | exact Hk]. }
    apply drop_duplicates_from_keys in Hk'. destruct Hk' as [Hk' _].
    apply in_map_iff in Hk'. destruct Hk' as [f [Hf Hin]].
    apply filter_In in Hin. exists f. tauto.
  - intros [f [Hin [Hflag Hkey]]].
    eapply Permutation_in;
      [symmetry; apply Permutation_map; exact Hperm|].
    apply drop_duplicates_from_keys. split; [|tauto].
    apply in_map_iff. exists f. split; [exact Hkey|].
    apply filter_In. tauto.
  - apply sort_values_sorted.
Qed.

(* ================================================================= *)
(** ** ai_analysis_broad.main, record by record *)

Lemma mapM_total {A B : Type} (f : A -> result B) (g : A -> B) (l : list A) :
  (forall a, In a l -> f a = Ok (g a)) -> mapM f l = Ok (map g l).
Proof.
  induction l as [|a r IH]; intro Hf; simpl; [reflexivity|].
  rewrite Hf by now left. simpl. rewrite IH; [reflexivity|].
  intros; apply Hf; now right.
Qed.

Module AiFacts.
Import AiBroad AiView.

Lemma compile_broad_ok : compile_patterns BROAD_PATTERNS = Ok compiled_broad.
Proof. vm_compute. reflexivity. Qed.

Lemma phrases_normalized {U : Unicode} :
  map (fun t => normalize_text (str t)) BROAD_FUZZY_PHRASES = broad_phrases.
Proof. reflexivity. Qed.

Lemma label_not_empty (l : pystr) (p : Re.Pattern) :
  In (l, p) compiled_broad -> l <> [].
Proof.
  assert (Hall : forallb (fun lp => negb (pystr_eqb (fst lp) []))
                         compiled_broad = true) by reflexivity.
  rewrite forallb_forall in Hall. intros Hin ->.
  specialize (Hall _ Hin). discriminate.
Qed.

Section Fuzzy.
Context {F : Fuzz}.

Lemma py_max_ok (xs : list Z) : xs <> [] -> exists m, py_max xs = Ok m.
Proof. destruct xs; [congruence | simpl; eauto]. Qed.

(** Over a phrase list that is not empty the comparison never raises. *)
Lemma fuzzy_decision_total (text : pystr) (phrases : list pystr) (t : Z) :
  phrases <> [] ->
  fuzzy_decision text phrases t = Ok (fuzzy_classified phrases t text).
Proof.
  intro Hne. unfold fuzzy_classified, fuzzy_decision, max_fuzzy_score.
  destruct text; [reflexivity|].
  destruct phrases; [congruence | reflexivity].
Qed.

Lemma fuzzy_threshold_mono (text : pystr) (phrases : list pystr) (t1 t2 : Z) :
  (t1 <= t2)%Z ->
  fuzzy_decision text phrases t2 = Ok true ->
  fuzzy_decision text phrases t1 = Ok true.
Proof.
  unfold fuzzy_decision. intro Hle.
  destruct (max_fuzzy_score text phrases) as [s|e]; simpl; [|congruence].
  intros [= Ht2]. f_equal. apply Z.leb_le. apply Z.leb_le in Ht2. lia.
Qed.

End Fuzzy.

Section Rows.
Context {U : Unicode} {F : Fuzz} {Num : Type} `{DType Num}.

Lemma hits_of_in (compiled : list (pystr * Re.Pattern)) (text l : pystr) :
  In l (hits_of compiled text)
  <-> exists p, In (l, p) compiled /\ Re.search p text = true.
Proof.
  unfold hits_of. rewrite in_map_iff. split.
  - intros [[l' p] [<- Hin]]. apply filter_In in Hin. now exists p.
  - intros [p Hp]. exists (l, p). split; [reflexivity|]. now apply filter_In.
Qed.

Lemma rule_match_iff (text : pystr) :
  rule_match text = true
  <-> exists l p, In (l, p) compiled_broad /\ Re.search p text = true.
Proof.
  unfold rule_match. split.
  - destruct (hits_of compiled_broad text) as [|l r] eqn:E; [discriminate|].
    intros _. exists l. apply hits_of_in. rewrite E. now left.
  - intros [l [p Hp]].
    assert (Hin : In l (hits_of compiled_broad text))
      by (apply hits_of_in; eauto).
    destruct (hits_of compiled_broad text); [destruct Hin | reflexivity].
Qed.

(** The columns of [classify_with], zipped back into rows. *)
Lemma zip_columns (compiled : list (pystr * Re.Pattern)) (g : pystr -> bool)
    (df : list (Row Num)) :
  let texts := map text_norm_of df in
  let hits := map (hits_of compiled) texts in
  map (fun x => {| row := fst (fst x); flag := snd (fst x);
                   others := [snd x] |})
      (combine
         (combine df (map (fun mf => fst mf || snd mf)
                          (combine (map (@truthy pystr) hits) (map g texts))))
         (map reason_of hits))
  = map (fun r => {| row := r;
                     flag := truthy (hits_of compiled (text_norm_of r))
                             || g (text_norm_of r);
                     others := [reason_of (hits_of compiled
                                                   (text_norm_of r))] |})
        df.
Proof.
  induction df as [|r rest IH]; simpl; [reflexivity|].
  f_equal. exact IH.
Qed.

Lemma classify_rows (args : Args) (df : list (Row Num)) :
  classify args df = Ok (map (flagged_row args) df).
Proof.
  unfold classify. rewrite compile_broad_ok. cbn [bind].
  rewrite phrases_normalized. unfold classify_with.
  destruct (disable_fuzzy args) eqn:Hd.
  - cbn [bind]. f_equal.
    replace (repeat false (List.length df))
      with (map (fun _ : pystr => false) (map text_norm_of df)).
    + rewrite zip_columns. apply map_ext. intro r.
      unfold flagged_row, rule_match, reason_text. now rewrite Hd.
    + rewrite map_map. clear. induction df; simpl; congruence.
  - rewrite (mapM_total _ (fuzzy_classified broad_phrases
                                            (fuzzy_threshold args))).
    + cbn [bind]. f_equal. rewrite zip_columns. apply map_ext. intro r.
      unfold flagged_row, rule_match, reason_text. now rewrite Hd.
    + intros. apply fuzzy_decision_total. discriminate.
Qed.


End Rows.
End AiFacts.

(* ================================================================= *)
(** ** Rule matching, the fuzzy gate and the reason column *)

Lemma Forall2_map_right {A B : Type} (P : A -> B -> Prop) (f : A -> B)
    (l : list A) :
  (forall a, P a (f a)) -> Forall2 P l (map f l).
Proof. intro Hf. induction l; simpl; constructor; auto. Qed.

Lemma filter_length_mono {A : Type} (p q : A -> bool) (l : list A) :
  (forall a, p a = true -> q a = true) ->
  (List.length (filter p l) <= List.length (filter q l))%nat.
Proof.
  intro Hpq. induction l as [|a r IH]; simpl; [lia|].
  destruct (p a) eqn:Hp.
  - rewrite (Hpq _ Hp). simpl. lia.
  - destruct (q a); simpl; lia.
Qed.

Lemma join_nil (sep : pystr) (ws : list pystr) :
  Forall (fun w => w <> []) ws -> join sep ws = [] -> ws = [].
Proof.
  destruct 1 as [|w rest Hw _]; [reflexivity|]. simpl.
  destruct w; [congruence|]. destruct rest; discriminate.
Qed.

Module AiClaims.
Import AiBroad AiView AiFacts.

(** C1, as stated, fails on the broad script.  The title "Autonomous"
    holds a secondary-tier term and no context term, so the tiered rule of
    the specification rejects it; the script has one flat table, the only
    pattern that matches is [autonomous], and the record is flagged, also
    with fuzzy matching off. *)
Lemma secondary_only_text_flagged :
  (forall U : Unicode,
      let text := text_norm_of (titled "Autonomous") in
      spec_tiered_match (without_labels spec_secondary)
                        (with_labels spec_secondary)
                        (with_labels spec_context) text = false
      /\ hits_of compiled_broad text = [str "autonomous"]
      /\ rule_match text = true)
  /\ (forall (U : Unicode) (F : Fuzz) (threshold : Z) (off : bool),
         classify {| fuzzy_threshold := threshold; disable_fuzzy := off |}
                  [titled "Autonomous"]
         = Ok [{| row := titled "Autonomous"; flag := true;
                  others := [str "autonomous"] |}]).
Proof.
  split.
  - intro U. vm_compute. auto.
  - intros U F threshold off. rewrite classify_rows. reflexivity.
Qed.

(** C1, amended.  The broad script flags a record exactly when some pattern
    of [BROAD_PATTERNS] matches the normalised title and description, or
    fuzzy matching is on and the fuzzy score reaches the threshold: every
    pattern counts alone, there is no context gate.  "Autonomous" and
    "Data Science" alone have a rule match; "Ethics in Technology" has
    none. *)
Theorem broad_flag_iff_any_pattern {U : Unicode} {F : Fuzz} {Num : Type}
    `{DType Num} (args : Args) (df : list (Row Num)) :
  (exists flagged,
      classify args df = Ok flagged
      /\ Forall2
           (fun r f =>
              row f = r
              /\ (flag f = true
                  <-> (exists l p, In (l, p) compiled_broad
                                   /\ Re.search p (text_norm_of r) = true)
                      \/ (disable_fuzzy args = false
                          /\ fuzzy_decision (text_norm_of r) broad_phrases
                                            (fuzzy_threshold args)
                             = Ok true)))
           df flagged)
  /\ rule_match (text_norm_of (titled "Autonomous")) = true
  /\ rule_match (text_norm_of (titled "Data Science")) = true
  /\ rule_match (text_norm_of (titled "Ethics in Technology")) = false.
Proof.
  split; [|repeat split; reflexivity].
  exists (map (flagged_row args) df). split; [apply classify_rows|].
  apply Forall2_map_right. intro r. split; [reflexivity|].
  unfold flagged_row. cbn [flag].
  rewrite orb_true_iff, andb_true_iff, negb_true_iff, rule_match_iff.
  rewrite fuzzy_decision_total by discriminate.
  split; (intros [Hr | [Hd Hf]]; [left; exact Hr | right; split; congruence]).
Qed.

(** C2.  With fuzzy matching disabled the flag column is the rule column:
    every record is flagged exactly when a rule matched it, whatever the
    threshold and the scorer. *)
Theorem fuzzy_disabled_is_rules_only {U : Unicode} {F : Fuzz} {Num : Type}
    `{DType Num} (threshold : Z) (df : list (Row Num)) :
  exists flagged,
    classify {| fuzzy_threshold := threshold; disable_fuzzy := true |} df
    = Ok flagged
    /\ map (@row Num) flagged = df
    /\ map (@flag Num) flagged
       = map (fun r => truthy (hits_of compiled_broad (text_norm_of r))) df.
Proof.
  eexists. split; [apply classify_rows|]. rewrite !map_map. split.
  - rewrite <- (map_id df) at 2. apply map_ext. reflexivity.
  - apply map_ext. intro r. unfold flagged_row. cbn [flag disable_fuzzy].
    apply orb_false_r.
Qed.

(** C3.  The fuzzy decision is monotone in the threshold: a text classified
    at the higher threshold is classified at the lower one, so over a batch
    the classified texts at the higher threshold are among those at the
    lower one and are not more numerous. *)
Theorem fuzzy_threshold_monotone {F : Fuzz} (phrases texts : list pystr)
    (t1 t2 : Z) :
  (t1 <= t2)%Z ->
  (forall text, fuzzy_decision text phrases t2 = Ok true ->
                fuzzy_decision text phrases t1 = Ok true)
  /\ incl (filter (fuzzy_classified phrases t2) texts)
          (filter (fuzzy_classified phrases t1) texts)
  /\ (List.length (filter (fuzzy_classified phrases t2) texts)
      <= List.length (filter (fuzzy_classified phrases t1) texts))%nat.
Proof.
  intro Hle.
  assert (Hmono : forall text, fuzzy_classified phrases t2 text = true ->
                               fuzzy_classified phrases t1 text = true).
  { intros text. unfold fuzzy_classified.
    destruct (fuzzy_decision text phrases t2) as [b|e] eqn:E2; [|discriminate].
    intros ->. now rewrite (fuzzy_threshold_mono _ _ Hle E2). }
  split; [|split].
  - intros text. now apply fuzzy_threshold_mono.
  - intros text Hin. apply filter_In in Hin. apply filter_In.
    destruct Hin. auto.
  - now apply filter_length_mono.
Qed.

Lemma fuzzy_threshold_monotone_witness :
  (50 <= 85)%Z
  /\ (List.length
        (filter (@fuzzy_classified exact_fuzz [str "data science"] 85)
                [str "data science"; str "biology"])
      <= List.length
           (filter (@fuzzy_classified exact_fuzz [str "data science"] 50)
                   [str "data science"; str "biology"]))%nat.
Proof.
  split; [lia|].
  apply (@fuzzy_threshold_monotone exact_fuzz [str "data science"]
           [str "data science"; str "biology"] 50 85).
  lia.
Defined.

(** C8, as stated, fails at threshold 0: the score of the empty text is 0,
    and 0 reaches a threshold of 0. *)
Lemma empty_text_classified_at_zero :
  @fuzzy_decision exact_fuzz [] [str "data science"] 0 = Ok true
  /\ (forall (F : Fuzz) (phrases : list pystr),
         fuzzy_decision [] phrases 0 = Ok true).
Proof. split; reflexivity. Qed.

(** C8, amended.  For the empty normalised text the score is 0 whatever the
    phrases and the scorer (no similarity is computed, and an empty phrase
    list raises nothing), and the decision is false exactly when the
    threshold is positive. *)
Theorem empty_text_fuzzy_decision {F : Fuzz} (phrases : list pystr)
    (threshold : Z) :
  max_fuzzy_score [] phrases = Ok 0%Z
  /\ (fuzzy_decision [] phrases threshold = Ok false <-> (0 < threshold)%Z)
  /\ (fuzzy_decision [] phrases threshold = Ok true <-> (threshold <= 0)%Z).
Proof.
  split; [reflexivity|]. unfold fuzzy_decision. cbn [max_fuzzy_score bind].
  destruct (Z.leb_spec threshold 0); split; split;
    intro; try reflexivity; try congruence; try lia.
Qed.

End AiClaims.

Module ReasonClaims.
Import AiBroad AiView AiFacts.

Lemma sorted_set_in (hits : list pystr) (l : pystr) :
  In l (sorted_set hits) <-> In l hits.
Proof.
  unfold sorted_set. rewrite <- (nodup_In (list_eq_dec N.eq_dec) hits l).
  split; apply Permutation_in;
    [|symmetry]; apply sort_by_perm.
Qed.

Lemma sorted_set_nodup (hits : list pystr) : NoDup (sorted_set hits).
Proof.
  unfold sorted_set.
  eapply Permutation_NoDup; [symmetry; apply sort_by_perm|].
  apply NoDup_nodup.
Qed.

Lemma sorted_set_sorted (hits : list pystr) :
  StronglySorted pystr_le (sorted_set hits).
Proof.
  unfold sorted_set. apply sort_by_sorted.
  - exact pystr_leb_total.
  - exact pystr_leb_trans.
Qed.

Lemma reason_of_join (hits : list pystr) :
  reason_of hits = join [COMMA] (sorted_set hits).
Proof. destruct hits; reflexivity. Qed.

(** C7.  The reason of a record is the comma-joined list of the labels of
    the patterns that matched its normalised text, each label once, in the
    order of strings; it is the empty string exactly when no pattern
    matched, whatever the fuzzy settings did to the flag. *)
Theorem reason_is_sorted_label_set {U : Unicode} {F : Fuzz} {Num : Type}
    `{DType Num} (args : Args) (df : list (Row Num)) :
  exists flagged,
    classify args df = Ok flagged
    /\ Forall2
         (fun r f =>
            exists labels,
              others f = [join [COMMA] labels]
              /\ StronglySorted pystr_le labels
              /\ NoDup labels
              /\ (forall l, In l labels
                            <-> exists p, In (l, p) compiled_broad
                                          /\ Re.search p (text_norm_of r)
                                             = true)
              /\ (join [COMMA] labels = []
                  <-> forall l p, In (l, p) compiled_broad ->
                                  Re.search p (text_norm_of r) = false))
         df flagged.
Proof.
  exists (map (flagged_row args) df). split; [apply classify_rows|].
  apply Forall2_map_right. intro r.
  set (text := text_norm_of r).
  exists (sorted_set (hits_of compiled_broad text)).
  assert (Hin : forall l,
             In l (sorted_set (hits_of compiled_broad text))
             <-> exists p, In (l, p) compiled_broad
                           /\ Re.search p text = true).
  { intro l. rewrite sorted_set_in. apply hits_of_in. }
  split; [|split; [|split; [|split]]].
  - unfold flagged_row, reason_text. cbn [others]. fold text.
    now rewrite reason_of_join.
  - apply sorted_set_sorted.
  - apply sorted_set_nodup.
  - exact Hin.
  - split.
    + intros Hnil l p Hlp.
      destruct (Re.search p text) eqn:Hs; [|reflexivity].
      apply join_nil in Hnil.
      * assert (Hl : In l (sorted_set (hits_of compiled_broad text)))
          by (apply Hin; eauto).
        rewrite Hnil in Hl. destruct Hl.
      * apply Forall_forall. intros l' Hl'. apply Hin in Hl'.
        destruct Hl' as [p' [Hp' _]]. eapply label_not_empty, Hp'.
    + intro Hnone.
      destruct (sorted_set (hits_of compiled_broad text)) as [|l rest] eqn:E;
        [reflexivity|].
      assert (Hl : In l (l :: rest)) by now left.
      apply Hin in Hl. destruct Hl as [p [Hp Hs]].
      rewrite (Hnone _ _ Hp) in Hs. discriminate.
Qed.

End ReasonClaims.

(* ================================================================= *)
(** ** The ethics matchers *)

Module EthicsClaims.
Import Ethics.

Section Matchers.
Context {U : Unicode}.

Lemma or_empty_optional (v : option pystr) :
  or_empty (of_optional v) = PyStr (text_of v).
Proof. destruct v; reflexivity. Qed.

(** Over a string, [any] raises nothing and says whether a pattern is
    found. *)
Lemma any_search_str (ps : list Re.Pattern) (s : pystr) :
  any_search ps (PyStr s) = Ok (Re.matches_any ps s).
Proof.
  induction ps as [|p rest IH]; simpl; [reflexivity|].
  destruct (Re.search p s); simpl; [reflexivity | exact IH].
Qed.

Lemma analysis_is_match_str (m : EthicsMatcher) (title description : option pystr) :
  EthicsAnalysis.is_match m (of_optional title) (of_optional description)
  = Ok (Re.matches_any (title_patterns m) (text_of title)
        || Re.matches_any (description_patterns m) (text_of description)).
Proof.
  unfold EthicsAnalysis.is_match. rewrite !or_empty_optional, !any_search_str.
  cbn [bind]. now destruct (Re.matches_any (title_patterns m) (text_of title)).
Qed.

Lemma filter_is_match_str (m : EthicsMatcher) (title description : option pystr) :
  EthicsFilter.is_match m (of_optional title) (of_optional description)
  = Ok (Re.matches_any (title_patterns m) (text_of title)
        || Re.matches_any (description_patterns m) (text_of description)).
Proof.
  unfold EthicsFilter.is_match. rewrite !or_empty_optional, !any_search_str.
  cbn [bind]. destruct (Re.matches_any (title_patterns m) (text_of title));
    [reflexivity|].
  destruct (description_patterns m) eqn:E; [reflexivity|].
  now rewrite <- E.
Qed.

(** The flag column of [ethics_analysis.main] over a frame whose title and
    description cells are all strings. *)
Lemma analysis_classify_strings {Num : Type} `{DType Num}
    (built : EthicsMatcher) (df : list (Row Num)) :
  EthicsAnalysis.build = Ok built ->
  Forall (fun r => title r <> None /\ description r <> None) df ->
  EthicsAnalysis.classify df
  = Ok (map (fun r =>
               {| row := r;
                  flag := Re.matches_any (title_patterns built)
                                         (text_of (title r))
                          || Re.matches_any (description_patterns built)
                                            (text_of (description r));
                  others := [] |}) df).
Proof.
  intros Hb Hdf. unfold EthicsAnalysis.classify. rewrite Hb. cbn [bind].
  rewrite (mapM_total _ (fun r =>
             Re.matches_any (title_patterns built) (text_of (title r))
             || Re.matches_any (description_patterns built)
                               (text_of (description r)))).
  - cbn [bind]. f_equal. clear. induction df; simpl; congruence.
  - intros r Hr. rewrite Forall_forall in Hdf. destruct (Hdf _ Hr) as [Ht Hd].
    destruct (title r) as [t|] eqn:Et; [|congruence].
    destruct (description r) as [d|] eqn:Ed; [|congruence].
    apply (analysis_is_match_str built (Some t) (Some d)).
Qed.

End Matchers.

(** An empty description cell is the float NaN, which is true and is not a
    string: when no title pattern matches, the search over it raises. *)
Example analysis_classify_nan {U : Unicode} :
  EthicsAnalysis.classify [titled "Calculus"] = Raise TypeError.
Proof. reflexivity. Qed.

(** C6.  Both ethics matchers answer true exactly when a title pattern is
    found in the title or a description pattern is found in the
    description, with no gate between the two; with the patterns of the
    script the title "Introduction to Ethics" is matched whatever the
    description is. *)
Theorem ethics_match_title_or_description {U : Unicode} (m : EthicsMatcher)
    (title description : option pystr) :
  EthicsAnalysis.is_match m (of_optional title) (of_optional description)
  = Ok (Re.matches_any (title_patterns m) (text_of title)
        || Re.matches_any (description_patterns m) (text_of description))
  /\ EthicsFilter.is_match m (of_optional title) (of_optional description)
     = Ok (Re.matches_any (title_patterns m) (text_of title)
           || Re.matches_any (description_patterns m) (text_of description))
  /\ (exists built,
         EthicsAnalysis.build = Ok built
         /\ EthicsFilter.build true = Ok built
         /\ forall d : pyval,
             EthicsAnalysis.is_match built
               (PyStr (str "Introduction to Ethics")) d = Ok true
             /\ EthicsFilter.is_match built
                  (PyStr (str "Introduction to Ethics")) d = Ok true).
Proof.
  split; [apply analysis_is_match_str|].
  split; [apply filter_is_match_str|].
  eexists. split; [vm_compute; reflexivity|].
  split; [vm_compute; reflexivity|].
  intro d. split; reflexivity.
Qed.

(** C10.  A matcher built with [include_description=False] has no
    description pattern: its answer is the same for any two descriptions,
    and for a title of type [str | None] it is true exactly when a title
    pattern is found in the title. *)
Theorem title_only_matcher_ignores_description {U : Unicode} :
  exists m,
    EthicsFilter.build false = Ok m
    /\ compile_all TITLE_PATTERNS = Ok (title_patterns m)
    /\ description_patterns m = []
    /\ (forall title d1 d2 : pyval,
           EthicsFilter.is_match m title d1 = EthicsFilter.is_match m title d2)
    /\ (forall (title : option pystr) (d : pyval),
           EthicsFilter.is_match m (of_optional title) d
           = Ok (Re.matches_any (title_patterns m) (text_of title))).
Proof.
  eexists. split; [vm_compute; reflexivity|].
  split; [vm_compute; reflexivity|].
  split; [reflexivity|].
  split.
  - intros title d1 d2. unfold EthicsFilter.is_match.
    cbn [description_patterns]. reflexivity.
  - intros title d. unfold EthicsFilter.is_match.
    rewrite or_empty_optional, any_search_str. cbn [bind description_patterns].
    now destruct (Re.matches_any _ (text_of title)).
Qed.

End EthicsClaims.

(* ================================================================= *)
(** ** The subset view on a sample frame *)

Example subset_sample :
  subset sample_frame
  = [sample_row "Fall 2025" "BIO" 101 true;
     sample_row "Fall 2025" "CS" 470 true].
Proof. reflexivity. Qed.

Lemma subset_filtered_unique_sorted_witness :
  (forall f, In f (subset sample_frame) ->
             In f sample_frame /\ flag f = true)
  /\ NoDup (map key (subset sample_frame))
  /\ (forall k, In k (map key (subset sample_frame))
                <-> exists f, In f sample_frame /\ flag f = true
                              /\ key f = k)
  /\ StronglySorted key_le (subset sample_frame).
Proof.
  exact (@subset_filtered_unique_sorted Z int_dtype int_laws sample_frame).
Defined.

(* ================================================================= *)
(** * Further properties of the scripts *)

(** ** The shape of a normalised text *)

Section NormalFormFacts.
Context {U : Unicode}.

Lemma word_head (w : pystr) :
  word_ok w -> exists c r, w = c :: r /\ is_az09 c = true.
Proof.
  intros [Hne Hw]. destruct w as [|c r]; [congruence|].
  exists c, r. split; [reflexivity | now inversion Hw].
Qed.

Lemma word_last (w : pystr) :
  word_ok w -> exists r c, w = r ++ [c] /\ is_az09 c = true.
Proof.
  intros [Hne Hw]. destruct (exists_last Hne) as [r [c ->]].
  exists r, c. split; [reflexivity|].
  apply Forall_app in Hw. destruct Hw as [_ Hc]. now inversion Hc.
Qed.

Lemma join_head (ws : list pystr) (c : cp) (r : pystr) :
  Forall word_ok ws -> join [SPACE] ws = c :: r -> is_az09 c = true.
Proof.
  destruct 1 as [|w rest Hw _]; simpl; [discriminate|].
  destruct (word_head Hw) as [c' [r' [-> Hc']]].
  destruct rest; simpl; intros [= <- _]; exact Hc'.
Qed.

(** Where a word followed by more text has a space, the space is in the
    text that follows or is its first character. *)
Lemma word_app_space (w tail s1 s2 : pystr) :
  Forall (fun c => is_az09 c = true) w ->
  w ++ tail = s1 ++ SPACE :: s2 ->
  exists s1', s1 = w ++ s1' /\ tail = s1' ++ SPACE :: s2.
Proof.
  intro Hw. revert s1. induction Hw as [|c r Hc _ IH]; intros s1 Heq.
  - exists s1. auto.
  - destruct s1 as [|d s1]; simpl in Heq.
    + injection Heq as -> _. discriminate.
    + injection Heq as <- Heq. destruct (IH _ Heq) as [s1' [-> Ht]].
      exists s1'. auto.
Qed.

Lemma join_space_between (ws : list pystr) :
  Forall word_ok ws ->
  forall s1 s2,
    join [SPACE] ws = s1 ++ SPACE :: s2 ->
    (exists r c, s1 = r ++ [c] /\ is_az09 c = true)
    /\ (exists c r, s2 = c :: r /\ is_az09 c = true).
Proof.
  induction 1 as [|w rest Hw Hrest IH]; intros s1 s2 Heq.
  - destruct s1; discriminate.
  - simpl in Heq. destruct rest as [|w2 rest'].
    + rewrite <- (app_nil_r w) in Heq.
      destruct (word_app_space _ _ _ (proj2 Hw) Heq) as [s1' [_ Hnil]].
      destruct s1'; discriminate.
    + destruct (word_app_space _ _ _ (proj2 Hw) Heq) as [s1' [-> Ht]].
      destruct s1' as [|d s1'']; simpl in Ht.
      * injection Ht as Ht. split.
        -- rewrite app_nil_r. apply word_last, Hw.
        -- destruct s2 as [|c r].
           ++ exfalso. inversion Hrest as [|? ? Hw2 _]; subst.
              destruct (word_head Hw2) as [c' [r' [-> _]]].
              destruct rest'; discriminate.
           ++ exists c, r. split; [reflexivity|].
              eapply join_head; [exact Hrest | exact Ht].
      * injection Ht as <- Ht. destruct (IH _ _ Ht) as [[r [c [-> Hc]]] H2].
        split; [|exact H2].
        exists (w ++ SPACE :: r), c. split; [|exact Hc].
        now rewrite <- app_assoc.
Qed.

(** The empty result: [split] finds no word exactly when the text has no
    character of [a-z0-9]. *)
Lemma split_sub_nil (s : pystr) :
  forall b cur,
    split_from cur (non_alnum_sub b s) = []
    <-> cur = [] /\ Forall (fun c => is_az09 c = false) s.
Proof.
  induction s as [|c r IH]; intros b cur; simpl.
  - destruct cur; split; intro Hx; try discriminate.
    + split; [reflexivity | constructor].
    + reflexivity.
    + destruct Hx; discriminate.
  - destruct (is_az09 c) eqn:Hc.
    + simpl. rewrite (az09_not_space _ Hc), IH. split.
      * intros [Hnil _]. destruct cur; discriminate.
      * intros [_ Hall]. inversion Hall; congruence.
    + destruct b.
      * rewrite IH. split; intros [? Hall]; split; auto.
        now inversion Hall.
      * cbn [split_from]. rewrite space_is_space. destruct cur.
        -- rewrite IH. split; intros [? Hall]; split; auto.
           now inversion Hall.
        -- split; [discriminate | intros [? _]; discriminate].
Qed.

End NormalFormFacts.

(** X1. A normalised text holds only characters of [a-z0-9] and spaces,
    and every space stands between two characters of [a-z0-9]: no space
    leads, trails or follows another one. *)
Theorem normalize_text_single_spaced {U : Unicode} (x : pystr) :
  Forall (fun c => is_az09 c = true \/ c = SPACE) (normalize_text x)
  /\ forall s1 s2,
      normalize_text x = s1 ++ SPACE :: s2 ->
      (exists r c, s1 = r ++ [c] /\ is_az09 c = true)
      /\ (exists c r, s2 = c :: r /\ is_az09 c = true).
Proof.
  destruct (normalize_text_words x) as [ws [Hws ->]]. split.
  - now apply join_chars.
  - now apply join_space_between.
Qed.

(** X2. The normalised text is empty exactly when the lower-cased input
    has no character of [a-z0-9]: an empty, blank or punctuation-only text
    normalises to the empty string. *)
Theorem normalize_text_empty_iff {U : Unicode} (x : pystr) :
  normalize_text x = []
  <-> Forall (fun c => is_az09 c = false) (lower x).
Proof.
  unfold normalize_text.
  set (ws := split (non_alnum_sub false (lower x))).
  assert (Hws : Forall word_ok ws) by (apply split_sub_words; constructor).
  assert (Hnil : ws = [] <-> Forall (fun c => is_az09 c = false) (lower x)).
  { unfold ws, split. rewrite split_sub_nil. tauto. }
  rewrite <- Hnil. split.
  - apply join_nil. eapply Forall_impl; [|exact Hws]. now intros w [Hne _].
  - now intros ->.
Qed.

(** ** The fuzzy score *)

Lemma fold_max_spec (r : list Z) :
  forall x : Z,
    let m := fold_left Z.max r x in
    (x <= m)%Z /\ Forall (fun y => (y <= m)%Z) r /\ (m = x \/ In m r).
Proof.
  induction r as [|y r IH]; intro x; simpl.
  - split; [lia|]. split; [constructor | now left].
  - destruct (IH (Z.max x y)) as [Hle [Hall Hin]]. split; [lia|]. split.
    + constructor; [lia | exact Hall].
    + destruct Hin as [Hm | Hin]; [|right; right; exact Hin].
      destruct (Z.max_spec x y) as [[_ Hxy] | [_ Hxy]]; rewrite Hxy in *.
      * right. left. now symmetry.
      * left. exact Hm.
Qed.

(** X3. For a text that is not empty, [max_fuzzy_score] raises
    [ValueError] on an empty phrase list; otherwise it returns the score of
    one of the phrases, no phrase scores higher, and the text is classified
    exactly when some phrase scores at or above the threshold. *)
Theorem max_fuzzy_score_is_best_phrase {F : Fuzz} (c : cp) (text : pystr) :
  AiBroad.max_fuzzy_score (c :: text) [] = Raise ValueError
  /\ forall (p : pystr) (ps : list pystr),
      exists m,
        AiBroad.max_fuzzy_score (c :: text) (p :: ps) = Ok m
        /\ (forall q, In q (p :: ps) -> (partial_ratio (c :: text) q <= m)%Z)
        /\ (exists q, In q (p :: ps) /\ m = partial_ratio (c :: text) q)
        /\ forall threshold,
            AiBroad.fuzzy_decision (c :: text) (p :: ps) threshold = Ok true
            <-> exists q, In q (p :: ps)
                          /\ (threshold <= partial_ratio (c :: text) q)%Z.
Proof.
  split; [reflexivity|]. intros p ps.
  set (score := fun q => partial_ratio (c :: text) q).
  destruct (fold_max_spec (map score ps) (score p)) as [Hp [Hps Hin]].
  set (m := fold_left Z.max (map score ps) (score p)) in *.
  assert (Hub : forall q, In q (p :: ps) -> (score q <= m)%Z).
  { intros q [<- | Hq]; [exact Hp|].
    rewrite Forall_forall in Hps. apply Hps. now apply in_map. }
  assert (Hmem : exists q, In q (p :: ps) /\ m = score q).
  { destruct Hin as [Hm | Hm].
    - exists p. split; [now left | exact Hm].
    - apply in_map_iff in Hm. destruct Hm as [q [Hq Hin]].
      exists q. split; [now right | now symmetry]. }
  exists m. split; [reflexivity|]. split; [exact Hub|]. split; [exact Hmem|].
  intro threshold. unfold AiBroad.fuzzy_decision.
  change (AiBroad.max_fuzzy_score (c :: text) (p :: ps)) with (Ok m).
  cbn [bind]. split.
  - intros [= Ht]. apply Z.leb_le in Ht.
    destruct Hmem as [q [Hq Hm]]. exists q. split; [exact Hq|].
    fold (score q). lia.
  - intros [q [Hq Ht]]. f_equal. apply Z.leb_le.
    specialize (Hub q Hq). unfold score in Hub. lia.
Qed.

(* ================================================================= *)
(** ** More on the subset view *)

Section SortedLists.
Variable A : Type.
Variable leb : A -> A -> bool.

Let le (a b : A) : Prop := leb a b = true.

(** Sorting a sorted list changes nothing. *)
Lemma sort_by_sorted_id (l : list A) :
  StronglySorted le l -> sort_by leb l = l.
Proof.
  induction 1 as [|x rest Hrest IH Hx]; simpl; [reflexivity|].
  change (fold_right (insert_by leb) [] rest) with (sort_by leb rest).
  rewrite IH. destruct rest as [|y rest']; [reflexivity|]. simpl.
  inversion Hx as [|? ? Hxy _]; subst. unfold le in Hxy. now rewrite Hxy.
Qed.

Hypothesis leb_antisym : forall a b, leb a b = true -> leb b a = true -> a = b.

(** A sorted list without repeats is determined by its elements. *)
Lemma sorted_nodup_unique (l1 : list A) :
  forall l2,
    StronglySorted le l1 -> StronglySorted le l2 ->
    NoDup l1 -> NoDup l2 ->
    (forall x, In x l1 <-> In x l2) ->
    l1 = l2.
Proof.
  induction l1 as [|x r1 IH]; intros [|y r2] S1 S2 N1 N2 Hiff.
  - reflexivity.
  - destruct (proj2 (Hiff y)); now left.
  - destruct (proj1 (Hiff x)); now left.
  - inversion S1 as [|? ? S1' Hx]; inversion S2 as [|? ? S2' Hy];
      inversion N1 as [|? ? Nx N1']; inversion N2 as [|? ? Ny N2']; subst.
    rewrite Forall_forall in Hx, Hy.
    assert (Hxy : x = y).
    { destruct (proj1 (Hiff x) (or_introl eq_refl)) as [-> | Hin2];
        [reflexivity|].
      destruct (proj2 (Hiff y) (or_introl eq_refl)) as [-> | Hin1];
        [reflexivity|].
      apply leb_antisym; [apply Hx, Hin1 | apply Hy, Hin2]. }
    subst y. f_equal. apply IH; auto.
    intro z. split; intro Hz.
    + destruct (proj1 (Hiff z) (or_intror Hz)) as [<- | Hz2];
        [contradiction | exact Hz2].
    + destruct (proj2 (Hiff z) (or_intror Hz)) as [<- | Hz1];
        [contradiction | exact Hz1].
Qed.

End SortedLists.

Lemma filter_all {A : Type} (p : A -> bool) (l : list A) :
  Forall (fun a => p a = true) l -> filter p l = l.
Proof.
  induction 1 as [|a r Ha _ IH]; simpl; [reflexivity|].
  now rewrite Ha, IH.
Qed.

Lemma filter_split {A : Type} (p : A -> bool) (l : list A) :
  forall a f b,
    filter p l = a ++ f :: b ->
    exists l1 l2, l = l1 ++ f :: l2 /\ filter p l1 = a /\ filter p l2 = b.
Proof.
  induction l as [|x r IH]; intros a f b Heq; simpl in Heq.
  - destruct a; discriminate.
  - destruct (p x) eqn:Hp.
    + destruct a as [|a0 a']; simpl in Heq; injection Heq as -> Heq.
      * exists [], r. simpl. auto.
      * destruct (IH _ _ _ Heq) as [l1 [l2 [-> [H1 H2]]]].
        exists (a0 :: l1), l2. simpl. rewrite Hp, H1. auto.
    + destruct (IH _ _ _ Heq) as [l1 [l2 [-> [H1 H2]]]].
      exists (x :: l1), l2. simpl. rewrite Hp. auto.
Qed.

Section SubsetFacts.
Context {Num : Type} `{DTypeLaws Num}.

Lemma key_leb_antisym (a b : key_t Num) :
  key_leb a b = true -> key_leb b a = true -> a = b.
Proof.
  destruct a as [p n], b as [p' n']. unfold key_leb. simpl.
  destruct (cell_eqb p p') eqn:E.
  - apply cell_eqb_eq in E. subst p'.
    replace (cell_eqb p p) with true by (symmetry; now apply cell_eqb_eq).
    intros H1 H2. f_equal. now apply cell_leb_antisym.
  - destruct (cell_eqb p' p) eqn:E'.
    + apply cell_eqb_eq in E'. subst p'.
      assert (cell_eqb p p = true) by now apply cell_eqb_eq. congruence.
    + intros H1 H2. pose proof (cell_leb_antisym _ _ H1 H2) as ->.
      assert (cell_eqb p' p' = true) by now apply cell_eqb_eq. congruence.
Qed.

Lemma subset_key_iff (df : list (Flagged Num)) (k : key_t Num) :
  In k (map key (subset df))
  <-> exists f, In f df /\ flag f = true /\ key f = k.
Proof.
  unfold subset, drop_duplicates, select_flagged.
  assert (Hperm : forall l, Permutation (map key (sort_values l)) (map key l))
    by (intro l; apply Permutation_map, sort_values_perm).
  split.
  - intro Hk. eapply Permutation_in in Hk; [|apply Hperm].
    apply drop_duplicates_from_keys in Hk. destruct Hk as [Hk _].
    apply in_map_iff in Hk. destruct Hk as [f [Hf Hin]].
    apply filter_In in Hin. exists f. tauto.
  - intros [f [Hin [Hflag Hkey]]].
    eapply Permutation_in; [symmetry; apply Hperm|].
    apply drop_duplicates_from_keys. split; [|tauto].
    apply in_map_iff. exists f. split; [exact Hkey|].
    apply filter_In. tauto.
Qed.

Lemma subset_keys_nodup (df : list (Flagged Num)) :
  NoDup (map key (subset df)).
Proof.
  unfold subset, drop_duplicates.
  eapply Permutation_NoDup;
    [symmetry; apply Permutation_map, sort_values_perm|].
  apply drop_duplicates_from_nodup.
Qed.

Lemma sorted_rows_sorted_keys (l : list (Flagged Num)) :
  StronglySorted key_le l -> StronglySorted key_order (map key l).
Proof.
  induction 1 as [|x rest _ IH Hx]; simpl; constructor; [exact IH|].
  apply Forall_map. exact Hx.
Qed.

Lemma subset_all_flagged (df : list (Flagged Num)) :
  Forall (fun f => flag f = true) (subset df).
Proof.
  apply Forall_forall. intros f Hin. unfold subset in Hin.
  eapply Permutation_in in Hin; [|apply sort_values_perm].
  apply drop_duplicates_from_in in Hin.
  now apply filter_In in Hin.
Qed.

Lemma drop_duplicates_from_id (l : list (Flagged Num)) :
  forall seen,
    NoDup (map key l) ->
    (forall k, In k seen -> ~ In k (map key l)) ->
    drop_duplicates_from seen l = l.
Proof.
  induction l as [|r rest IH]; intros seen Hnd Hseen; simpl; [reflexivity|].
  inversion Hnd as [|? ? Hr Hnd']; subst.
  destruct (existsb (key_eqb (key r)) seen) eqn:E.
  - apply seen_spec in E. exfalso. apply (Hseen _ E). now left.
  - f_equal. apply IH; [exact Hnd'|].
    intros k [<- | Hk]; [exact Hr|].
    intro Hin. apply (Hseen _ Hk). now right.
Qed.

Lemma drop_duplicates_from_first (l : list (Flagged Num)) :
  forall seen f,
    In f (drop_duplicates_from seen l) ->
    ~ In (key f) seen
    /\ exists l1 l2,
        l = l1 ++ f :: l2 /\ Forall (fun g => key g <> key f) l1.
Proof.
  induction l as [|r rest IH]; intros seen f; simpl; [tauto|].
  destruct (existsb (key_eqb (key r)) seen) eqn:E.
  - intro Hin. destruct (IH _ _ Hin) as [Hs [l1 [l2 [-> Hl1]]]].
    split; [exact Hs|]. exists (r :: l1), l2. split; [reflexivity|].
    constructor; [|exact Hl1].
    apply seen_spec in E. intro Heq. rewrite Heq in E. contradiction.
  - assert (Hr : ~ In (key r) seen).
    { intro Hin. apply seen_spec in Hin. congruence. }
    intros [<- | Hin].
    + split; [exact Hr|]. exists [], rest. split; [reflexivity | constructor].
    + destruct (IH _ _ Hin) as [Hs [l1 [l2 [-> Hl1]]]].
      split; [intro Hf; apply Hs; now right|].
      exists (r :: l1), l2. split; [reflexivity|].
      constructor; [|exact Hl1].
      intro Heq. apply Hs. left. exact Heq.
Qed.

End SubsetFacts.

(** X4. [drop_duplicates] keeps the first row: a row of the subset is
    flagged, and no flagged row before it in the frame has its key.  The
    course is represented by its first flagged term, whatever the rows of
    later terms hold. *)
Theorem subset_keeps_first_flagged_row {Num : Type} `{DTypeLaws Num}
    (df : list (Flagged Num)) (f : Flagged Num) :
  In f (subset df) ->
  exists l1 l2,
    df = l1 ++ f :: l2
    /\ flag f = true
    /\ Forall (fun g => flag g = true -> key g <> key f) l1.
Proof.
  intro Hin. unfold subset, drop_duplicates, select_flagged in Hin.
  eapply Permutation_in in Hin; [|apply sort_values_perm].
  destruct (drop_duplicates_from_first _ _ _ Hin) as [_ [a [b [Heq Ha]]]].
  destruct (filter_split _ _ _ _ _ Heq) as [l1 [l2 [-> [H1 _]]]].
  exists l1, l2. split; [reflexivity|]. split.
  - assert (Hf : In f (filter flag (l1 ++ f :: l2))).
    { rewrite Heq. apply in_or_app. right. now left. }
    now apply filter_In in Hf.
  - apply Forall_forall. intros g Hg Hflag.
    rewrite Forall_forall in Ha. apply Ha. rewrite <- H1.
    apply filter_In. auto.
Qed.

Lemma subset_keeps_first_flagged_row_witness :
  In (sample_row "Fall 2025" "CS" 470 true) (subset sample_frame)
  /\ exists l1 l2,
      sample_frame = l1 ++ sample_row "Fall 2025" "CS" 470 true :: l2
      /\ flag (sample_row "Fall 2025" "CS" 470 true) = true
      /\ Forall (fun g => flag g = true ->
                          key g <> key (sample_row "Fall 2025" "CS" 470 true))
                l1.
Proof.
  assert (Hin : In (sample_row "Fall 2025" "CS" 470 true)
                   (subset sample_frame)) by (right; left; reflexivity).
  split; [exact Hin|].
  exact (@subset_keeps_first_flagged_row Z int_dtype int_laws sample_frame
           _ Hin).
Defined.

(** X5. The subset step is idempotent: applied to its own output it
    changes nothing, since that output is all flagged, has one row a key
    and is sorted. *)
Theorem subset_idempotent {Num : Type} `{DTypeLaws Num}
    (df : list (Flagged Num)) :
  subset (subset df) = subset df.
Proof.
  unfold subset at 1. unfold select_flagged, drop_duplicates.
  rewrite (filter_all _ (subset_all_flagged df)).
  rewrite drop_duplicates_from_id;
    [|apply subset_keys_nodup | intros k []].
  unfold sort_values. apply sort_by_sorted_id.
  apply (sort_values_sorted (drop_duplicates (select_flagged df))).
Qed.

Lemma subset_idempotent_witness :
  subset (subset sample_frame) = subset sample_frame.
Proof.
  exact (@subset_idempotent Z int_dtype int_laws sample_frame).
Defined.

(** X6. The courses of the subset do not depend on the order of the input
    rows: two frames with the same rows in any order give the same list of
    keys. *)
Theorem subset_keys_order_independent {Num : Type} `{DTypeLaws Num}
    (df df' : list (Flagged Num)) :
  Permutation df df' ->
  map key (subset df) = map key (subset df').
Proof.
  intro Hperm.
  apply (sorted_nodup_unique (@key_leb Num _) key_leb_antisym).
  - apply sorted_rows_sorted_keys. apply sort_values_sorted.
  - apply sorted_rows_sorted_keys. apply sort_values_sorted.
  - apply subset_keys_nodup.
  - apply subset_keys_nodup.
  - intro k. rewrite !subset_key_iff.
    split; intros [f [Hin Hf]]; exists f; (split; [|exact Hf]).
    + eapply Permutation_in; [exact Hperm | exact Hin].
    + eapply Permutation_in; [symmetry; exact Hperm | exact Hin].
Qed.

Lemma subset_keys_order_independent_witness :
  Permutation sample_frame (rev sample_frame)
  /\ map key (subset sample_frame) = map key (subset (rev sample_frame)).
Proof.
  assert (Hp : Permutation sample_frame (rev sample_frame))
    by apply Permutation_rev.
  split; [exact Hp|].
  exact (@subset_keys_order_independent Z int_dtype int_laws _ _ Hp).
Defined.

(* ================================================================= *)
(** ** The fuzzy gate and the output of ai_analysis_broad.main *)

Module AiOutput.
Import AiBroad AiView AiFacts.


Section Output.
Context {U : Unicode} {F : Fuzz} {Num : Type} `{DTypeLaws Num}.


End Output.



End AiOutput.

(* ================================================================= *)
(** ** More on the ethics matchers *)


Module EthicsExtras.
Import Ethics EthicsView EthicsClaims.


Section Rows.
Context {U : Unicode} {Num : Type} `{DType Num}.



End Rows.

(** X8. The two [is_match] functions agree on every matcher and every
    argument, missing cells included: the early return of ethics_filter.py
    on an empty description pattern tuple changes no result. *)
Theorem is_match_implementations_agree {U : Unicode} (m : EthicsMatcher)
    (title description : pyval) :
  EthicsFilter.is_match m title description
  = EthicsAnalysis.is_match m title description.
Proof.
  unfold EthicsFilter.is_match, EthicsAnalysis.is_match.
  destruct (any_search (title_patterns m) (or_empty title)) as [[|]|e];
    cbn [bind]; try reflexivity.
  now destruct (description_patterns m).
Qed.

(** X9. The description patterns only add matches: the two builds of
    ethics_filter.py hold the same title patterns, and whatever the
    title-only matcher accepts the full matcher accepts, for any
    description. *)
Theorem description_patterns_only_add {U : Unicode} :
  exists title_only full,
    EthicsFilter.build false = Ok title_only
    /\ EthicsFilter.build true = Ok full
    /\ title_patterns title_only = title_patterns full
    /\ forall title description : pyval,
        EthicsFilter.is_match title_only title description = Ok true ->
        EthicsFilter.is_match full title description = Ok true.
Proof.
  do 2 eexists. split; [vm_compute; reflexivity|].
  split; [vm_compute; reflexivity|]. split; [reflexivity|].
  intros title description. unfold EthicsFilter.is_match.
  cbn [title_patterns description_patterns].
  match goal with
  | |- context [any_search ?tps (or_empty title)] =>
      destruct (any_search tps (or_empty title)) as [[|]|e]
  end; cbn [bind]; intro Hm; try discriminate. reflexivity.
Qed.


End EthicsExtras.

(* ================================================================= *)
(** ** Word boundaries on a normalised text *)

Section WordSearch.
Context {U : Unicode}.

Lemma az09_is_word (c : cp) : is_az09 c = true -> Re.is_word c = true.
Proof.
  unfold is_az09, Re.is_word, is_ascii. intro Hc.
  assert (Ha : (c <? 128) = true).
  { apply N.ltb_lt. unfold is_lower, is_digit in Hc. bool_to_prop; lia. }
  rewrite Ha. apply orb_true_iff in Hc. destruct Hc as [-> | ->]; simpl;
    [reflexivity|]. now rewrite !orb_true_r.
Qed.

Lemma az09_neq_space (c : cp) : is_az09 c = true -> (SPACE =? c) = false.
Proof.
  intro Hc. apply N.eqb_neq. intros <-. discriminate.
Qed.

Lemma pystr_eqb_cons (a c : cp) (w v : pystr) :
  pystr_eqb (a :: w) (c :: v) = (c =? a) && pystr_eqb w v.
Proof.
  destruct (N.eqb_spec c a) as [-> | Hne]; simpl.
  - destruct (pystr_eqb w v) eqn:E.
    + apply pystr_eqb_eq in E. subst. now apply pystr_eqb_eq.
    + apply not_true_is_false. intro E'. apply pystr_eqb_eq in E'.
      injection E' as ->. assert (pystr_eqb v v = true) by now apply pystr_eqb_eq.
      congruence.
  - apply not_true_is_false. intro E'. apply pystr_eqb_eq in E'.
    congruence.
Qed.

Lemma pystr_eqb_nil_cons (c : cp) (v : pystr) : pystr_eqb [] (c :: v) = false.
Proof. reflexivity. Qed.

Lemma pystr_eqb_cons_nil (a : cp) (w : pystr) : pystr_eqb (a :: w) [] = false.
Proof. reflexivity. Qed.

(** Once the first letter is read, the rest of the literal word matches
    the rest of the text word exactly when the two are equal. *)
Lemma lits_in_word (w : pystr) :
  Forall (fun c => is_az09 c = true) w ->
  forall (v tail : pystr) (p : cp),
    Forall (fun c => is_az09 c = true) v ->
    Re.is_word p = true ->
    word_end tail ->
    Re.matches false (lits w (Seq WordB Eps)) (Some p) (v ++ tail) (fun _ _ => true)
    = pystr_eqb w v.
Proof.
  induction 1 as [|a w' Ha _ IH]; intros v tail p Hv Hp Htail.
  - cbn [lits Re.matches Re.is_word_opt]. rewrite Hp, andb_true_r.
    destruct v as [|c v'].
    + destruct Htail as [-> | [t ->]]; reflexivity.
    + inversion Hv; subst. cbn [app hd_error Re.is_word_opt].
      now rewrite az09_is_word.
  - cbn [lits Re.matches]. destruct v as [|c v'].
    + rewrite pystr_eqb_cons_nil.
      destruct Htail as [-> | [t ->]]; [reflexivity|].
      cbn [app Re.chr_match]. now rewrite az09_neq_space.
    + inversion Hv; subst. cbn [app Re.chr_match].
      rewrite pystr_eqb_cons. f_equal.
      apply IH; auto using az09_is_word.
Qed.

(** An attempt at the start of a word of the text succeeds exactly when
    that word is the literal word. *)
Lemma attempt_at_word_start (w v tail : pystr) (prev : option cp) :
  word_ok w -> word_ok v -> Re.is_word_opt prev = false -> word_end tail ->
  Re.matches false (word_rx w) prev (v ++ tail) (fun _ _ => true) = pystr_eqb w v.
Proof.
  intros [Hwn Hw] [Hvn Hv] Hprev Htail.
  destruct w as [|a w']; [congruence|]. destruct v as [|c v']; [congruence|].
  inversion Hw; inversion Hv; subst.
  unfold word_rx. cbn [Re.matches lits app hd_error Re.is_word_opt].
  rewrite Hprev, az09_is_word by assumption. cbn [xorb andb Re.chr_match].
  rewrite pystr_eqb_cons. f_equal.
  apply lits_in_word; auto using az09_is_word.
Qed.

(** No attempt succeeds after a word character. *)
Lemma attempt_after_word_char (w s : pystr) (p : cp) :
  word_ok w -> Re.is_word p = true ->
  (s = [] \/ exists c t, s = c :: t /\ (is_az09 c = true \/ c = SPACE)) ->
  Re.matches false (word_rx w) (Some p) s (fun _ _ => true) = false.
Proof.
  intros [Hwn Hw] Hp Hs. destruct w as [|a w']; [congruence|].
  inversion Hw; subst.
  unfold word_rx. cbn [Re.matches lits Re.is_word_opt]. rewrite Hp.
  destruct Hs as [-> | [c [t [-> [Hc | ->]]]]]; cbn [hd_error Re.is_word_opt].
  - reflexivity.
  - now rewrite az09_is_word.
  - cbn [Re.chr_match]. rewrite az09_neq_space by assumption. reflexivity.
Qed.

(** The search runs through the rest of a word without a match. *)
Lemma search_through_word (w v tail : pystr) :
  word_ok w ->
  Forall (fun c => is_az09 c = true) v ->
  word_end tail ->
  forall p,
    Re.is_word p = true ->
    Re.search_from false (word_rx w) (Some p) (v ++ tail)
    = match tail with
      | [] => false
      | x :: t => Re.search_from false (word_rx w) (Some x) t
      end.
Proof.
  intros Hw Hv Htail. induction Hv as [|c v' Hc _ IH]; intros p Hp.
  - cbn [app]. destruct Htail as [-> | [t ->]]; cbn [Re.search_from].
    + rewrite attempt_after_word_char; auto.
    + rewrite attempt_after_word_char; auto.
      right. exists SPACE, t. auto.
  - cbn [app Re.search_from]. rewrite attempt_after_word_char; auto.
    + cbn [orb]. apply IH. now apply az09_is_word.
    + right. exists c, (v' ++ tail). auto.
Qed.

(** On a normalised text the pattern of a word finds exactly the words
    equal to it. *)
Lemma search_word_in_join (w : pystr) (ws : list pystr) :
  word_ok w -> Forall word_ok ws ->
  forall prev,
    Re.is_word_opt prev = false ->
    Re.search_from false (word_rx w) prev (join [SPACE] ws)
    = existsb (pystr_eqb w) ws.
Proof.
  intros Hw. induction 1 as [|v rest Hv Hrest IH]; intros prev Hprev.
  - destruct Hw as [Hwn Hwc]. destruct w as [|a w']; [congruence|].
    unfold word_rx. cbn [join Re.search_from Re.matches hd_error
                         Re.is_word_opt]. now rewrite Hprev.
  - set (tail := match rest with [] => [] | _ => SPACE :: join [SPACE] rest end).
    assert (Hj : join [SPACE] (v :: rest) = v ++ tail).
    { unfold tail. simpl. destruct rest; [now rewrite app_nil_r | reflexivity]. }
    assert (Htail : word_end tail).
    { unfold tail. destruct rest; [now left | right; eauto]. }
    rewrite Hj. cbn [existsb].
    destruct Hv as [Hvn Hvc]. destruct v as [|c v']; [congruence|].
    inversion Hvc; subst.
    cbn [app Re.search_from].
    change (c :: v' ++ tail) with ((c :: v') ++ tail).
    rewrite attempt_at_word_start; auto; [|split; [discriminate|assumption]].
    f_equal. rewrite search_through_word; auto using az09_is_word.
    unfold tail. destruct rest as [|v2 rest']; [reflexivity|].
    apply IH. reflexivity.
Qed.

End WordSearch.

Lemma label_patterns {A : Type} (l : pystr) (p : A) (L : list (pystr * A)) :
  In (l, p) L
  <-> In p (map snd (filter (fun lp => pystr_eqb (fst lp) l) L)).
Proof.
  rewrite in_map_iff. split.
  - intro Hin. exists (l, p). split; [reflexivity|].
    apply filter_In. split; [exact Hin | now apply pystr_eqb_eq].
  - intros [[l' p'] [Hp Hin]]. simpl in Hp. subst p'.
    apply filter_In in Hin. destruct Hin as [Hin Hl].
    apply pystr_eqb_eq in Hl. simpl in Hl. now subst l'.
Qed.

Lemma existsb_pystr_eqb (w : pystr) (ws : list pystr) :
  existsb (pystr_eqb w) ws = true <-> In w ws.
Proof.
  rewrite existsb_exists. split.
  - intros [v [Hin Heq]]. apply pystr_eqb_eq in Heq. now subst.
  - intro Hin. exists w. split; [exact Hin | now apply pystr_eqb_eq].
Qed.

(** X11. Word boundaries on the normalised text.  For the labels [ai],
    [gpt], [chatgpt] and [autonomous] the label is a hit exactly when the
    word itself is one of the words of the normalised text: "ai" inside
    "said" or "main" is no hit, a standalone "AI" is. *)
Theorem single_word_label_hits_whole_words {U : Unicode} (x w : pystr) :
  In w single_word_labels ->
  (In w (AiBroad.hits_of AiView.compiled_broad (normalize_text x))
   <-> In w (split (normalize_text x))).
Proof.
  intro Hw.
  destruct (normalize_text_words x) as [ws [Hws ->]].
  rewrite (split_join Hws), AiFacts.hits_of_in.
  assert (Hpat : forall p, In (w, p) AiView.compiled_broad
                           <-> p = word_pattern w).
  { intro p. rewrite label_patterns.
    assert (Hf : map snd (filter (fun lp => pystr_eqb (fst lp) w)
                                 AiView.compiled_broad)
                 = [word_pattern w]).
    { unfold single_word_labels in Hw. simpl in Hw.
      repeat destruct Hw as [<- | Hw]; try reflexivity. destruct Hw. }
    rewrite Hf. simpl. split; [intros [<- | []]; reflexivity | auto]. }
  assert (Hok : word_ok w).
  { unfold single_word_labels in Hw. simpl in Hw.
    repeat destruct Hw as [<- | Hw]; try (split; [discriminate|];
      repeat constructor). destruct Hw. }
  assert (Hsearch : Re.search (word_pattern w) (join [SPACE] ws)
                    = existsb (pystr_eqb w) ws).
  { unfold Re.search, word_pattern. cbn [Re.rx Re.ignorecase].
    now apply search_word_in_join. }
  rewrite <- existsb_pystr_eqb, <- Hsearch. split.
  - intros [p [Hp Hs]]. apply Hpat in Hp. now subst p.
  - intro Hs. exists (word_pattern w). split; [now apply Hpat | exact Hs].
Qed.

Lemma single_word_label_hits_whole_words_witness :
  In (str "ai") single_word_labels
  /\ (In (str "ai")
         (@AiBroad.hits_of ascii_only AiView.compiled_broad
            (@normalize_text ascii_only (str "He said: the main AI!")))
      <-> In (str "ai")
             (split (@normalize_text ascii_only
                       (str "He said: the main AI!")))).
Proof.
  assert (Hin : In (str "ai") single_word_labels) by (left; reflexivity).
  split; [exact Hin|].
  exact (@single_word_label_hits_whole_words ascii_only
           (str "He said: the main AI!") (str "ai") Hin).
Defined.

(* ================================================================= *)
(** ** Case in the ethics matchers *)

Section CaseFacts.
Context {U : Unicode}.

Lemma sre_lower_ascii_lower (t : cp) :
  Re.sre_lower (ascii_lower t) = Re.sre_lower t.
Proof.
  unfold Re.sre_lower, ascii_lower.
  destruct (is_upper t) eqn:Hu; [|now rewrite Hu].
  unfold is_upper in *.
  destruct ((65 <=? t + 32) && (t + 32 <=? 90)) eqn:Hu'.
  - bool_to_prop; lia.
  - destruct (N.eqb_spec (t + 32) 304); [bool_to_prop; lia|].
    destruct (N.eqb_spec (t + 32) 8490); [bool_to_prop; lia|]. reflexivity.
Qed.

Lemma chr_match_ascii_lower (c t : cp) :
  Re.chr_match true c (ascii_lower t) = Re.chr_match true c t.
Proof.
  unfold Re.chr_match. rewrite sre_lower_ascii_lower.
  unfold ascii_lower. destruct (is_upper t) eqn:Hu; [|reflexivity].
  unfold is_upper in Hu.
  replace (t + 32 =? 305) with false
    by (symmetry; apply N.eqb_neq; bool_to_prop; lia).
  replace (t + 32 =? 383) with false
    by (symmetry; apply N.eqb_neq; bool_to_prop; lia).
  replace (t =? 305) with false
    by (symmetry; apply N.eqb_neq; bool_to_prop; lia).
  replace (t =? 383) with false
    by (symmetry; apply N.eqb_neq; bool_to_prop; lia).
  reflexivity.
Qed.

Lemma is_word_ascii_lower (t : cp) :
  Re.is_word (ascii_lower t) = Re.is_word t.
Proof.
  unfold ascii_lower. destruct (is_upper t) eqn:Hu; [|reflexivity].
  unfold Re.is_word. rewrite Hu. unfold is_upper in Hu.
  assert (Ha : is_ascii t = true)
    by (unfold is_ascii; apply N.ltb_lt; bool_to_prop; lia).
  assert (Ha' : is_ascii (t + 32) = true)
    by (unfold is_ascii; apply N.ltb_lt; bool_to_prop; lia).
  assert (Hl : is_lower (t + 32) = true).
  { unfold is_lower. apply andb_true_iff.
    split; apply N.leb_le; bool_to_prop; lia. }
  rewrite Ha, Ha', Hl. now rewrite !orb_true_r.
Qed.

Lemma is_word_opt_ascii_lower (p : option cp) :
  Re.is_word_opt (option_map ascii_lower p) = Re.is_word_opt p.
Proof. destruct p; simpl; [apply is_word_ascii_lower | reflexivity]. Qed.

(** Under [IGNORECASE] the matcher does not see the case of ASCII letters
    in the text. *)
Lemma matches_ascii_lower (r : regex) :
  forall prev s (k k' : option cp -> pystr -> bool),
    (forall p t, k' (option_map ascii_lower p) (map ascii_lower t) = k p t) ->
    Re.matches true r (option_map ascii_lower prev) (map ascii_lower s) k'
    = Re.matches true r prev s k.
Proof.
  induction r as [|c|cs| |a IHa b IHb|a IHa b IHb|a IHa];
    intros prev s k k' Hk; cbn [Re.matches].
  - apply Hk.
  - destruct s as [|x s']; [reflexivity|]. cbn [map].
    rewrite chr_match_ascii_lower. f_equal. apply (Hk (Some x)).
  - destruct s as [|x s']; [reflexivity|]. cbn [map]. f_equal.
    + induction cs as [|c cs' IHcs]; cbn [existsb]; [reflexivity|].
      now rewrite chr_match_ascii_lower, IHcs.
    + apply (Hk (Some x)).
  - rewrite is_word_opt_ascii_lower, Hk. f_equal. f_equal.
    destruct s; simpl; [reflexivity | apply is_word_ascii_lower].
  - apply IHa. intros p t. now apply IHb.
  - f_equal; [now apply IHa | now apply IHb].
  - f_equal; [now apply IHa | apply Hk].
Qed.

Lemma search_ascii_lower (p : Re.Pattern) (s : pystr) :
  Re.ignorecase p = true ->
  Re.search p (map ascii_lower s) = Re.search p s.
Proof.
  unfold Re.search. intros ->.
  change (@None cp) with (option_map ascii_lower None) at 1.
  generalize (@None cp). induction s as [|x s' IH]; intro prev;
    cbn [map Re.search_from].
  - f_equal. now apply (matches_ascii_lower _ prev []).
  - f_equal.
    + now apply (matches_ascii_lower _ prev (x :: s')).
    + apply (IH (Some x)).
Qed.

Lemma matches_any_ascii_lower (ps : list Re.Pattern) (s : pystr) :
  forallb Re.ignorecase ps = true ->
  Re.matches_any ps (map ascii_lower s) = Re.matches_any ps s.
Proof.
  intro Hps. unfold Re.matches_any.
  induction ps as [|p rest IH]; simpl; [reflexivity|].
  simpl in Hps. apply andb_true_iff in Hps. destruct Hps as [Hp Hrest].
  now rewrite search_ascii_lower, IH.
Qed.

End CaseFacts.

(** X12. The ethics matcher does not see the case of ASCII letters: every
    pattern is compiled with [IGNORECASE], so a title and a description
    and their lower-cased forms get the same answer ("ETHICS" as
    "ethics"). *)
Theorem ethics_match_ignores_ascii_case {U : Unicode}
    (title description : option pystr) :
  EthicsAnalysis.is_match EthicsView.ethics_matcher
    (of_optional (option_map (map ascii_lower) title))
    (of_optional (option_map (map ascii_lower) description))
  = EthicsAnalysis.is_match EthicsView.ethics_matcher
      (of_optional title) (of_optional description).
Proof.
  rewrite !EthicsClaims.analysis_is_match_str.
  assert (Htext : forall v : option pystr,
             text_of (option_map (map ascii_lower) v)
             = map ascii_lower (text_of v)) by (intros [v|]; reflexivity).
  rewrite !Htext, !matches_any_ascii_lower by reflexivity. reflexivity.
Qed.

(* ================================================================= *)
(** ** scrape.py: the result list and the retries *)

Module ScrapeFacts.
Import Scrape ScrapeView.




Section Driver.
Context {W : Type} {B : Browser W}.


(** With [fuel] passes left at [attempt], [fuel + attempt = retries + 1]:
    the first page that does not time out decides. *)
Lemma links_loop_first_page (retries : Z) (url : pystr) (fuel : nat) :
  forall (attempt : Z) (w : W),
    (Z.of_nat fuel + attempt = retries + 1)%Z ->
    fst (links_loop fuel attempt retries url w)
    = match find (fun pg => negb (is_timed_out pg)) (observe fuel url w) with
      | Some pg => links_of_page pg
      | None => Some []
      end.
Proof.
  induction fuel as [|fuel IH]; intros attempt w Hinv; simpl; [reflexivity|].
  destruct (load_results w url) as [[| |hrefs|] w']; simpl; try reflexivity.
  destruct (Z.ltb_spec attempt retries) as [Hlt | Hge].
  - apply IH. lia.
  - assert (fuel = O) by lia. subst fuel. reflexivity.
Qed.

End Driver.


(** X14. The retries: [get_course_links] loads the results page at most
    [retries + 1] times, and the first of these loads that does not time
    out decides the result; when all of them time out, or [retries] is
    negative, the result is the empty list. *)
Theorem get_course_links_first_answer {W : Type} {B : Browser W}
    (w : W) (prefix : pystr) (term_code retries : Z) :
  fst (get_course_links w prefix term_code retries)
  = match find (fun pg => negb (is_timed_out pg))
               (observe (Z.to_nat (retries + 1))
                        (results_url prefix term_code) w) with
    | Some pg => links_of_page pg
    | None => Some []
    end.
Proof.
  unfold get_course_links.
  destruct (Z.leb_spec (retries + 1) 0) as [Hneg | Hpos].
  - replace (Z.to_nat (retries + 1)) with O by lia. reflexivity.
  - apply links_loop_first_page. lia.
Qed.

End ScrapeFacts.

(* ================================================================= *)
(** ** scrape.py: what [main] keeps of the loaded courses *)

Module ScrapeMain.
Import Scrape ScrapeView.

Lemma dict_mem_false_set {V : Type} (k : pystr) (v : V)
    (d : list (pystr * V)) :
  dict_mem k d = false -> dict_set k v d = d ++ [(k, v)].
Proof.
  unfold dict_mem. induction d as [|[k' v'] r IH]; simpl; [reflexivity|].
  destruct (pystr_eqb k' k); simpl; [discriminate|].
  intro Hr. now rewrite IH.
Qed.

Lemma dict_set_keys {V : Type} (k : pystr) (v : V) (d : list (pystr * V)) :
  map fst (dict_set k v d)
  = if dict_mem k d then map fst d else map fst d ++ [k].
Proof.
  unfold dict_mem. induction d as [|[k' v'] r IH]; simpl; [reflexivity|].
  destruct (pystr_eqb k' k) eqn:E; simpl.
  - apply pystr_eqb_eq in E. now subst.
  - rewrite IH. now destruct (existsb _ r).
Qed.

(** A property of [existing] and of the file events that every step of
    [main] keeps is kept by [main]. *)
Section Invariant.
Context {W : Type} {B : Browser W}.
Variable overwrite : bool.
Variable Inv : dict -> list event -> Prop.

Hypothesis Inv_set :
  forall e evs link course,
    Inv e evs ->
    dict_mem link e && negb overwrite = false ->
    Inv (dict_set link (asdict course) e) evs.
Hypothesis Inv_log :
  forall e evs t c p, Inv e evs -> Inv e (LogEmptyPrefix t c p :: evs).
Hypothesis Inv_write :
  forall e evs, Inv e evs -> Inv e (WriteCsv e :: evs).

Let inv (st : @state W) : Prop := Inv (existing st) (events st).

Lemma scrape_links_inv (term_label : pystr) (links : list pystr) :
  forall st, inv st -> inv (scrape_links overwrite term_label links st).
Proof.
  induction links as [|link rest IH]; intros st Hst; simpl; [exact Hst|].
  destruct (dict_mem link (existing st) && negb overwrite) eqn:E;
    [now apply IH|].
  destruct (scrape_course (driver st) link term_label) as [[course|] w'];
    apply IH; unfold inv; cbn [existing events].
  - now apply Inv_set.
  - exact Hst.
Qed.

Lemma prefix_step_inv (term_label : pystr) (term_code : Z) (p : pystr)
    (st : @state W) :
  inv st -> inv (final (prefix_step overwrite term_label term_code p st)).
Proof.
  intro Hst. unfold prefix_step.
  destruct (get_course_links (driver st) p term_code 2) as [[links|] w'];
    [|exact Hst].
  destruct links as [|l links']; [now apply Inv_log|].
  set (st2 := scrape_links overwrite term_label (l :: links') _).
  assert (H2 : inv st2) by (apply scrape_links_inv; exact Hst).
  destruct (existing st2) eqn:E; [exact H2|]. rewrite <- E.
  destruct (writable (existing st2)); [|exact H2].
  now apply Inv_write.
Qed.

Lemma prefix_loop_inv (term_label : pystr) (term_code : Z)
    (prefixes : list pystr) :
  forall st,
    inv st ->
    inv (final (prefix_loop overwrite term_label term_code prefixes st)).
Proof.
  induction prefixes as [|p rest IH]; intros st Hst; simpl; [exact Hst|].
  pose proof (prefix_step_inv term_label term_code p Hst) as Hp.
  destruct (prefix_step overwrite term_label term_code p st) as [st'|st'];
    [now apply IH | exact Hp].
Qed.

Lemma term_loop_inv (terms : list (pystr * Z)) (prefixes : list pystr) :
  forall st,
    inv st -> inv (final (term_loop overwrite terms prefixes st)).
Proof.
  induction terms as [|[t c] rest IH]; intros st Hst; simpl; [exact Hst|].
  pose proof (prefix_loop_inv t c prefixes Hst) as Hp.
  destruct (prefix_loop overwrite t c prefixes st) as [st'|st'];
    [now apply IH | exact Hp].
Qed.

End Invariant.

(** X15. Without [--overwrite] a run never touches a course it loaded from
    the CSV: whether [main] finishes or an exception leaves it, the dict
    it ends with is the loaded dict, rows and order unchanged, followed by
    the courses it added, and so is every dict it wrote to the CSV. *)
Theorem main_keeps_loaded_courses {W : Type} {B : Browser W}
    (loaded : dict) (driver0 : W) :
  let st := final (main false loaded driver0) in
  (exists added, existing st = loaded ++ added)
  /\ Forall (keeps_loaded loaded) (events st).
Proof.
  unfold main.
  apply (term_loop_inv false
           (fun e evs => (exists added, e = loaded ++ added)
                         /\ Forall (keeps_loaded loaded) evs)).
  - intros e evs link course [[added ->] Hev] Hmem. split; [|exact Hev].
    rewrite andb_true_r in Hmem. rewrite dict_mem_false_set by exact Hmem.
    rewrite <- app_assoc. eauto.
  - intros e evs t c p [He Hev]. split; [exact He|].
    constructor; [exact I | exact Hev].
  - intros e evs [He Hev]. split; [exact He|].
    constructor; [exact He | exact Hev].
  - cbn [existing events]. split; [exists []; now rewrite app_nil_r|].
    constructor.
Qed.

(** X16. With or without [--overwrite] no URL is ever dropped: the keys of
    the dict [main] ends with are the loaded keys, in their order,
    followed by new ones. *)
Theorem main_never_drops_a_url {W : Type} {B : Browser W}
    (overwrite : bool) (loaded : dict) (driver0 : W) :
  exists new_urls,
    map fst (existing (final (main overwrite loaded driver0)))
    = map fst loaded ++ new_urls.
Proof.
  unfold main.
  apply (term_loop_inv overwrite
           (fun e _ => exists new_urls,
                map fst e = map fst loaded ++ new_urls)).
  - intros e evs link course [ks He] _. rewrite dict_set_keys.
    destruct (dict_mem link e); [eauto|].
    rewrite He, <- app_assoc. eauto.
  - auto.
  - auto.
  - cbn [existing]. exists []. now rewrite app_nil_r.
Qed.

End ScrapeMain.

(* ================================================================= *)
(** ** scrape.py: when [main] finishes *)

Module ScrapeRuns.
Import Scrape ScrapeView ScrapeMain.

Lemma asdict_columns (c : Course) : map fst (asdict c) = course_columns.
Proof. reflexivity. Qed.




Section Driver.
Context {W : Type} {B : Browser W}.
Hypothesis never_failed : forall w url, fst (load_results w url) <> Failed.





End Driver.



(** X18. A CSV whose first row lacks a column of [Course] cannot take a
    scraped course: once the dict holds a row made by [asdict], the writer
    refuses it ([ValueError]). *)
Theorem write_refuses_missing_column (first_url : pystr) (first_row : row)
    (rest : dict) (link col : pystr) (course : Course) :
  In col course_columns ->
  ~ In col (map fst first_row) ->
  In (link, asdict course) rest ->
  writable ((first_url, first_row) :: rest) = false.
Proof.
  intros Hcol Hmiss Hin. unfold writable.
  apply not_true_is_false. intro Hw.
  rewrite forallb_forall in Hw.
  specialize (Hw (link, asdict course) (or_intror Hin)). cbn [snd] in Hw.
  rewrite forallb_forall in Hw. rewrite asdict_columns in Hw.
  specialize (Hw col Hcol). apply existsb_exists in Hw.
  destruct Hw as [k [Hk Heq]]. apply pystr_eqb_eq in Heq. subst k.
  contradiction.
Qed.

Lemma write_refuses_missing_column_witness :
  In (str "units") course_columns
  /\ ~ In (str "units") (map fst [(str "url", Some (str "u"))])
  /\ In (url sample_course, asdict sample_course)
        [(url sample_course, asdict sample_course)]
  /\ writable [(str "u", [(str "url", Some (str "u"))]);
               (url sample_course, asdict sample_course)] = false.
Proof.
  assert (H1 : In (str "units") course_columns)
    by (do 6 right; left; reflexivity).
  assert (H2 : ~ In (str "units") (map fst [(str "url", Some (str "u"))]))
    by (intros [Hx | []]; discriminate Hx).
  assert (H3 : In (url sample_course, asdict sample_course)
                  [(url sample_course, asdict sample_course)])
    by (left; reflexivity).
  split; [exact H1|]. split; [exact H2|]. split; [exact H3|].
  exact (@write_refuses_missing_column (str "u")
           [(str "url", Some (str "u"))] _ _ _ _ H1 H2 H3).
Defined.

End ScrapeRuns.

(* ================================================================= *)
(** ** Case in the broad AI search *)

Section AsciiCase.
Context {U : Unicode}.

Lemma lower_from_ascii (s : pystr) :
  Forall (fun c => is_ascii c = true) s ->
  forall pre, lower_from pre s = map ascii_lower s.
Proof.
  induction 1 as [|c r Hc _ IH]; intro pre; simpl; [reflexivity|].
  unfold lower_char. rewrite Hc, IH. reflexivity.
Qed.

Lemma ascii_lower_ascii (c : cp) :
  is_ascii c = true -> is_ascii (ascii_lower c) = true.
Proof.
  unfold ascii_lower, is_ascii, is_upper. intro Hc.
  destruct ((65 <=? c) && (c <=? 90)) eqn:Hu; [|exact Hc].
  apply N.ltb_lt. bool_to_prop; lia.
Qed.

Lemma ascii_lower_idem (c : cp) : ascii_lower (ascii_lower c) = ascii_lower c.
Proof.
  unfold ascii_lower. destruct (is_upper c) eqn:Hu; [|now rewrite Hu].
  destruct (is_upper (c + 32)) eqn:Hu'; [|reflexivity].
  unfold is_upper in *. bool_to_prop; lia.
Qed.

Lemma lower_ascii_lower (s : pystr) :
  Forall (fun c => is_ascii c = true) s ->
  lower (map ascii_lower s) = lower s.
Proof.
  intro Hs. unfold lower. rewrite !lower_from_ascii.
  - rewrite map_map. apply map_ext. intro c. apply ascii_lower_idem.
  - exact Hs.
  - apply Forall_map. eapply Forall_impl; [|exact Hs].
    intros c. apply ascii_lower_ascii.
Qed.

End AsciiCase.

(** X19. On ASCII text the broad AI search does not see case: a text and
    its lower-cased form normalise to the same string and have the same
    hits, though the patterns are compiled without [IGNORECASE]. *)
Theorem broad_hits_ignore_ascii_case {U : Unicode} (text : pystr) :
  Forall (fun c => is_ascii c = true) text ->
  normalize_text (map ascii_lower text) = normalize_text text
  /\ AiBroad.hits_of AiView.compiled_broad
       (normalize_text (map ascii_lower text))
     = AiBroad.hits_of AiView.compiled_broad (normalize_text text).
Proof.
  intro Hs.
  assert (Hn : normalize_text (map ascii_lower text) = normalize_text text).
  { unfold normalize_text. now rewrite lower_ascii_lower. }
  split; [exact Hn | now rewrite Hn].
Qed.

Lemma broad_hits_ignore_ascii_case_witness :
  Forall (fun c => is_ascii c = true) (str "Machine LEARNING")
  /\ @normalize_text ascii_only (map ascii_lower (str "Machine LEARNING"))
     = @normalize_text ascii_only (str "Machine LEARNING")
  /\ @AiBroad.hits_of ascii_only AiView.compiled_broad
       (@normalize_text ascii_only (map ascii_lower (str "Machine LEARNING")))
     = @AiBroad.hits_of ascii_only AiView.compiled_broad
         (@normalize_text ascii_only (str "Machine LEARNING")).
Proof.
  assert (H1 : Forall (fun c => is_ascii c = true) (str "Machine LEARNING"))
    by (repeat constructor).
  split; [exact H1|].
  exact (@broad_hits_ignore_ascii_case ascii_only _ H1).
Defined.

(* ================================================================= *)
(** ** scrape.py: the sections offered *)

Module SectionsFacts.
Import Sections.








End SectionsFacts.

